(** * AgentDB: a shallow embedding of [src/agentdb.js]

    The store facade [AgentDB] keeps an HNSW index, a metadata store
    ([memoryStore], a JS [Map] keyed by the integer id), a reasoning bank
    (a JS [Map] keyed by a generated string id) and the [currentId] counter.

    Conventions of the embedding:
    - a JS [Map] and a plain JS object are insertion-ordered association
      lists with the operations of [JMap];
    - a method is a function from the state before the call to an outcome
      and the state after it; a JS exception is the outcome [Throw], which
      keeps the mutations made before the [throw];
    - [Date.now()] and [Math.random()] are explicit arguments of the methods
      that read them;
    - [emit] with no listener registered does nothing and is left out;
    - the strings [searchReasoning] looks into are sequences of UTF-16
      code units, and the built-in [toLowerCase] is a parameter of the
      method;
    - the vector given to [addVector] and [search] is a [Float32Array]
      or a plain array, which [new Float32Array] converts;
    - the index is the external library hnswlib-node: it is modelled from
      the specification of the ANN index, over an arbitrary scalar type,
      distance type and metric. *)

From Stdlib Require Import List Arith Lia Bool String Ascii ZArith.
From Stdlib Require Import Sorted Permutation DecimalString.
From Stdlib Require DecimalNat Floats Uint63.
Import ListNotations.

Set Implicit Arguments.
Set Warnings "-abstract-large-number".

(** ** Insertion-ordered maps: JS [Map] and plain objects *)

Module JMap.
Section Defs.
Variables K V : Type.
Variable eqb : K -> K -> bool.

(** [Map.prototype.get]: the value of the entry with key [k]. *)
Fixpoint get (k : K) (l : list (K * V)) : option V :=
  match l with
  | [] => None
  | (k', v) :: l' => if eqb k k' then Some v else get k l'
  end.

(** [Map.prototype.has]. *)
Definition has (k : K) (l : list (K * V)) : bool :=
  match get k l with Some _ => true | None => false end.

(** [Map.prototype.set]: an existing key keeps its position and takes the
    new value, a new key goes to the end. *)
Fixpoint set (k : K) (v : V) (l : list (K * V)) : list (K * V) :=
  match l with
  | [] => [(k, v)]
  | (k', v') :: l' =>
      if eqb k k' then (k, v) :: l' else (k', v') :: set k v l'
  end.

(** [Map.prototype.delete]; keys are distinct, so at most one entry goes. *)
Definition delete (k : K) (l : list (K * V)) : list (K * V) :=
  filter (fun p => negb (eqb k (fst p))) l.

(** [new Map(pairs)] and the object spread [{...a, ...b}]: the pairs of
    [b] are set one after the other over [a]. *)
Definition set_all (a b : list (K * V)) : list (K * V) :=
  fold_left (fun acc p => set (fst p) (snd p) acc) b a.

Definition of_list (pairs : list (K * V)) : list (K * V) := set_all [] pairs.

Definition keys (l : list (K * V)) : list K := map fst l.

(** The representation invariant of a [Map] or object: keys are distinct. *)
Definition wf (l : list (K * V)) : Prop := NoDup (keys l).
End Defs.
End JMap.

(** ** Strings that are searched: code units, [toLowerCase], [includes]

    A JS string is a sequence of UTF-16 code units.  The context and the
    reasoning of a record and the search term are kept in that form,
    since [searchReasoning] looks inside them; the strings that are only
    compared (identifiers, keys of objects) are Rocq strings.

    [String.prototype.toLowerCase] belongs to the JS runtime and follows
    the Unicode case mappings, some of which depend on the neighbouring
    characters: the methods that call it take it as a parameter. *)

Definition JsString : Type := list N.

(** What [toLowerCase] does on ASCII text: the letters A-Z are folded,
    unit by unit. *)
Definition is_upper (c : N) : bool := ((65 <=? c) && (c <=? 90))%N.

Definition lower_unit (c : N) : N := if is_upper c then (c + 32)%N else c.

Definition ascii_lower (s : JsString) : JsString := map lower_unit s.

Definition is_ascii (s : JsString) : Prop := Forall (fun c => (c < 128)%N) s.

(** [s.startsWith(t)]. *)
Fixpoint starts_with (s t : JsString) {struct t} : bool :=
  match t, s with
  | [], _ => true
  | _ :: _, [] => false
  | c :: t', d :: s' => (c =? d)%N && starts_with s' t'
  end.

(** [s.includes(t)]: [t] occurs in [s] at some position. *)
Fixpoint includes (s t : JsString) : bool :=
  starts_with s t ||
  match s with
  | [] => false
  | _ :: s' => includes s' t
  end.

(** [t] is a substring of [s]. *)
Definition occurs_in (t s : JsString) : Prop :=
  exists pre post, s = pre ++ t ++ post.

(** The specification's wording of the match: the term is a
    case-insensitive substring of the field.  Two code units are the same
    letter when they are equal or differ only by the case of a letter
    A-Z; the term matches a window of the field letter by letter. *)
Definition same_letter (c d : N) : Prop :=
  c = d \/
  (is_upper c = true /\ d = (c + 32)%N) \/
  (is_upper d = true /\ c = (d + 32)%N).

Definition ci_eq (a b : JsString) : Prop := Forall2 same_letter a b.

Definition ci_substring (t s : JsString) : Prop :=
  exists pre mid post, s = pre ++ mid ++ post /\ ci_eq mid t.

(** ** JS values, errors and outcomes *)

#[local] Set Warnings "-register-all".
Inductive JsVal : Type :=
| JNull
| JBool (b : bool)
| JNum (z : Z)
| JStr (s : string)
| JObj (fields : list (string * JsVal)).

(** A metadata object: string keys, in insertion order. *)
Definition Obj : Type := list (string * JsVal).

(** [{ ...a, ...b }]. *)
Definition spread (a b : Obj) : Obj := JMap.set_all String.eqb a b.

(** [x || d] on an optional number: [undefined] and [0] are falsy. *)
Definition js_or (x : option nat) (d : nat) : nat :=
  match x with
  | Some (S n) => S n
  | _ => d
  end.

(** The exceptions: the two [throw new Error] of the facade (the
    dimension mismatch of a vector and of a query), and the rejection by
    the index of a vector of the wrong length. *)
Inductive Error : Type :=
| VectorDimension (got want : nat)
| QueryDimension (got want : nat)
| IndexDimension (got want : nat).

Inductive Result (A : Type) : Type :=
| Ok (a : A)
| Throw (e : Error).
Arguments Ok {A} a.
Arguments Throw {A} e.

Definition is_ok {A} (r : Result A) : bool :=
  match r with Ok _ => true | Throw _ => false end.

(** ** The store *)

Section Model.
(** [F]: the scalars of a [Float32Array]; [D]: the distances the index
    reports. *)
Variable F : Type.
Variable D : Type.

(** *** The ANN index (hnswlib-node's [HierarchicalNSW]) *)

(** Modelled from the spec: the index itself, which is the external library
    hnswlib-node and not part of the sources.  Section 4.1: construction
    parameters [dimension], capacity hint, [m], [efConstruction],
    [efSearch]; [insert(id, vector)] rejects unless
    [vector.length == dimension] and the capacity hint is no hard cap;
    [search(query, k)] rejects unless [query.length == dimension] and
    returns (id, distance) in ascending distance, length
    [min(k, count)], ties broken by insertion order. *)
Record HNSW : Type := {
  h_dim : nat;
  h_maxElements : nat;
  h_m : nat;
  h_efConstruction : nat;
  h_ef : nat;
  h_points : list (nat * list F)
}.

(** Modelled from the spec: [new HierarchicalNSW('cosine', dim)]. *)
Definition HierarchicalNSW (dim : nat) : HNSW :=
  {| h_dim := dim; h_maxElements := 0; h_m := 0; h_efConstruction := 0;
     h_ef := 0; h_points := [] |}.

(** Modelled from the spec: [initIndex(maxElements, m, efConstruction)]. *)
Definition initIndex (maxE m0 efc : nat) (h : HNSW) : HNSW :=
  {| h_dim := h_dim h; h_maxElements := maxE; h_m := m0;
     h_efConstruction := efc; h_ef := h_ef h; h_points := [] |}.

(** Modelled from the spec: [setEf(efSearch)]. *)
Definition setEf (ef : nat) (h : HNSW) : HNSW :=
  {| h_dim := h_dim h; h_maxElements := h_maxElements h; h_m := h_m h;
     h_efConstruction := h_efConstruction h; h_ef := ef;
     h_points := h_points h |}.

(** Modelled from the spec: [addPoint(vector, label)], the index's insert. *)
Definition addPoint (v : list F) (label : nat) (h : HNSW) : Result HNSW :=
  if List.length v =? h_dim h then
    Ok {| h_dim := h_dim h; h_maxElements := h_maxElements h; h_m := h_m h;
          h_efConstruction := h_efConstruction h; h_ef := h_ef h;
          h_points := JMap.set Nat.eqb label v (h_points h) |}
  else Throw (IndexDimension (List.length v) (h_dim h)).

(** The metric ('cosine' in the source) and the order on distances. *)
Variable dist : list F -> list F -> D.
Variable dleb : D -> D -> bool.

(** Modelled from the spec: ranking by ascending distance; a point goes
    before the points already ranked that are not strictly closer, so among
    equal distances the earlier insertion comes first. *)
Fixpoint rank_insert (p : nat * D) (l : list (nat * D)) : list (nat * D) :=
  match l with
  | [] => [p]
  | x :: l' => if dleb (snd p) (snd x) then p :: l else x :: rank_insert p l'
  end.

Definition rank (l : list (nat * D)) : list (nat * D) :=
  fold_right rank_insert [] l.

(** Modelled from the spec: [searchKnn(query, k)], the index's search: the
    [k] closest points, as (label, distance). *)
Definition searchKnn (q : list F) (k : nat) (h : HNSW)
  : Result (list (nat * D)) :=
  if List.length q =? h_dim h then
    Ok (firstn k (rank (map (fun p => (fst p, dist q (snd p))) (h_points h))))
  else Throw (IndexDimension (List.length q) (h_dim h)).

(** *** Records of the facade *)

(** A value of [memoryStore]: [{ vector, metadata, timestamp, id }]. *)
Record VEntry : Type := {
  e_vector : list F;
  e_metadata : Obj;
  e_timestamp : nat;
  e_id : nat
}.

(** A value of [reasoningBank]: [{ context, reasoning, metadata, timestamp }]. *)
Record REntry : Type := {
  r_context : JsString;
  r_reasoning : JsString;
  r_metadata : Obj;
  r_timestamp : nat
}.

(** The fields of [this]. *)
Record AgentDB : Type := {
  dimension : nat;
  maxElements : nat;
  m : nat;
  efConstruction : nat;
  efSearch : nat;
  index : HNSW;
  memoryStore : list (nat * VEntry);
  currentId : nat;
  reasoningBank : list (string * REntry)
}.

Definition set_index (h : HNSW) (s : AgentDB) : AgentDB :=
  {| dimension := dimension s; maxElements := maxElements s; m := m s;
     efConstruction := efConstruction s; efSearch := efSearch s;
     index := h; memoryStore := memoryStore s; currentId := currentId s;
     reasoningBank := reasoningBank s |}.

Definition set_memoryStore (ms : list (nat * VEntry)) (s : AgentDB) : AgentDB :=
  {| dimension := dimension s; maxElements := maxElements s; m := m s;
     efConstruction := efConstruction s; efSearch := efSearch s;
     index := index s; memoryStore := ms; currentId := currentId s;
     reasoningBank := reasoningBank s |}.

Definition set_currentId (n : nat) (s : AgentDB) : AgentDB :=
  {| dimension := dimension s; maxElements := maxElements s; m := m s;
     efConstruction := efConstruction s; efSearch := efSearch s;
     index := index s; memoryStore := memoryStore s; currentId := n;
     reasoningBank := reasoningBank s |}.

Definition set_reasoningBank (rb : list (string * REntry)) (s : AgentDB)
  : AgentDB :=
  {| dimension := dimension s; maxElements := maxElements s; m := m s;
     efConstruction := efConstruction s; efSearch := efSearch s;
     index := index s; memoryStore := memoryStore s; currentId := currentId s;
     reasoningBank := rb |}.

Definition set_config (dim maxE : nat) (s : AgentDB) : AgentDB :=
  {| dimension := dim; maxElements := maxE; m := m s;
     efConstruction := efConstruction s; efSearch := efSearch s;
     index := index s; memoryStore := memoryStore s; currentId := currentId s;
     reasoningBank := reasoningBank s |}.

(** The [options] of the constructor; an absent option is [None]. *)
Record Options : Type := {
  o_dimension : option nat;
  o_maxElements : option nat;
  o_m : option nat;
  o_efConstruction : option nat;
  o_efSearch : option nat
}.

(** The index the constructor and [clear] build. *)
Definition fresh_index (dim maxE m0 efc ef : nat) : HNSW :=
  setEf ef (initIndex maxE m0 efc (HierarchicalNSW dim)).

(** [new AgentDB(options)]. *)
Definition new_AgentDB (options : Options) : AgentDB :=
  let dim := js_or (o_dimension options) 384 in
  let maxE := js_or (o_maxElements options) 10000 in
  let m0 := js_or (o_m options) 16 in
  let efc := js_or (o_efConstruction options) 200 in
  let ef := js_or (o_efSearch options) 50 in
  {| dimension := dim; maxElements := maxE; m := m0; efConstruction := efc;
     efSearch := ef; index := fresh_index dim maxE m0 efc ef;
     memoryStore := []; currentId := 0; reasoningBank := [] |}.

(** The [vector] of [addVector] and the [query] of [search]
    ([Float32Array|Array]): a [Float32Array], or a plain array, whose
    elements [new Float32Array(array)] reads one by one as
    single-precision values; on a number that reading is [Math.fround].
    A plain array comes with the type [Num] of its elements and their
    reading [fround]. *)
Inductive VectorArg : Type :=
| Float32Array (a : list F)
| PlainArray (Num : Type) (fround : Num -> F) (a : list Num).

(** [vector instanceof Float32Array ? vector : new Float32Array(vector)]. *)
Definition float32Array (vector : VectorArg) : list F :=
  match vector with
  | Float32Array a => a
  | PlainArray fround a => map fround a
  end.

(** [addVector(vector, metadata)]; [now] is the reading of [Date.now()].
    The counter is incremented first, then the argument is converted and
    the length is checked. *)
Definition addVector (vector : VectorArg) (metadata : Obj) (now : nat)
  (s : AgentDB) : Result nat * AgentDB :=
  let id := currentId s in
  let s1 := set_currentId (S id) s in
  let vectorArray := float32Array vector in
  if negb (List.length vectorArray =? dimension s1) then
    (Throw (VectorDimension (List.length vectorArray) (dimension s1)), s1)
  else
    match addPoint vectorArray id (index s1) with
    | Throw e => (Throw e, s1)
    | Ok h =>
        let s2 := set_index h s1 in
        let entry := {| e_vector := vectorArray; e_metadata := metadata;
                        e_timestamp := now; e_id := id |} in
        (Ok id, set_memoryStore (JMap.set Nat.eqb id entry (memoryStore s2)) s2)
    end.

(** One element of the array [search] returns:
    [{ id, distance, ...this.memoryStore.get(id) }].  The spread adds
    [vector], [metadata] and [timestamp] and rewrites [id] with the entry's
    own; with no entry it adds nothing. *)
Record SearchResult : Type := {
  sr_id : nat;
  sr_distance : D;
  sr_vector : option (list F);
  sr_metadata : option Obj;
  sr_timestamp : option nat
}.

Definition hydrate (s : AgentDB) (p : nat * D) : SearchResult :=
  match JMap.get Nat.eqb (fst p) (memoryStore s) with
  | Some e =>
      {| sr_id := e_id e; sr_distance := snd p;
         sr_vector := Some (e_vector e); sr_metadata := Some (e_metadata e);
         sr_timestamp := Some (e_timestamp e) |}
  | None =>
      {| sr_id := fst p; sr_distance := snd p; sr_vector := None;
         sr_metadata := None; sr_timestamp := None |}
  end.

(** [search(query, k)]; it reads the state and leaves it as it is. *)
Definition search (query : VectorArg) (k : nat) (s : AgentDB)
  : Result (list SearchResult) :=
  let queryArray := float32Array query in
  if negb (List.length queryArray =? dimension s) then
    Throw (QueryDimension (List.length queryArray) (dimension s))
  else
    match searchKnn queryArray k (index s) with
    | Throw e => Throw e
    | Ok neighbors => Ok (map (hydrate s) neighbors)
    end.

(** The [k = 5] of the signature. *)
Definition search_default (query : VectorArg) (s : AgentDB)
  : Result (list SearchResult) :=
  search query 5 s.

(** The identifier [addReasoning] builds:
    [`reasoning_${Date.now()}_${random suffix}`]. *)
Definition reasoning_id (now : nat) (suffix : string) : string :=
  ("reasoning_" ++ NilEmpty.string_of_uint (Nat.to_uint now) ++ "_" ++ suffix)%string.

(** [addReasoning(context, reasoning, metadata)]; [now] and [now'] are the
    two readings of [Date.now()], [suffix] the random part of the id. *)
Definition addReasoning (context reasoning : JsString) (metadata : Obj)
  (now : nat) (suffix : string) (now' : nat) (s : AgentDB) : string * AgentDB :=
  let id := reasoning_id now suffix in
  let entry := {| r_context := context; r_reasoning := reasoning;
                  r_metadata := metadata; r_timestamp := now' |} in
  (id, set_reasoningBank (JMap.set String.eqb id entry (reasoningBank s)) s).

(** [getReasoning(id)]. *)
Definition getReasoning (id : string) (s : AgentDB) : option REntry :=
  JMap.get String.eqb id (reasoningBank s).

(** [String.prototype.toLowerCase], the built-in. *)
Variable toLowerCase : JsString -> JsString.

(** The test of [searchReasoning] on one entry. *)
Definition reasoning_matches (searchTerm : JsString) (entry : REntry) : bool :=
  includes (toLowerCase (r_context entry)) (toLowerCase searchTerm) ||
  includes (toLowerCase (r_reasoning entry)) (toLowerCase searchTerm).

(** [searchReasoning(searchTerm)]: the entries of the bank in iteration
    order, each pushed as [{ id, ...entry }] when it matches. *)
Definition searchReasoning (searchTerm : JsString) (s : AgentDB)
  : list (string * REntry) :=
  filter (fun p => reasoning_matches searchTerm (snd p)) (reasoningBank s).

(** [getStats()], without the process's memory usage. *)
Record Stats : Type := {
  totalVectors : nat;
  totalReasoning : nat;
  st_dimension : nat;
  st_maxElements : nat
}.

Definition getStats (s : AgentDB) : Stats :=
  {| totalVectors := List.length (memoryStore s);
     totalReasoning := List.length (reasoningBank s);
     st_dimension := dimension s; st_maxElements := maxElements s |}.

(** [clear()]. *)
Definition clear (s : AgentDB) : AgentDB :=
  {| dimension := dimension s; maxElements := maxElements s; m := m s;
     efConstruction := efConstruction s; efSearch := efSearch s;
     index := fresh_index (dimension s) (maxElements s) (m s)
                (efConstruction s) (efSearch s);
     memoryStore := []; currentId := 0; reasoningBank := [] |}.

(** [deleteVector(id)]: the index is not touched. *)
Definition deleteVector (id : nat) (s : AgentDB) : bool * AgentDB :=
  if JMap.has Nat.eqb id (memoryStore s) then
    (true, set_memoryStore (JMap.delete Nat.eqb id (memoryStore s)) s)
  else (false, s).

(** [updateMetadata(id, metadata)]. *)
Definition updateMetadata (id : nat) (metadata : Obj) (s : AgentDB)
  : bool * AgentDB :=
  match JMap.get Nat.eqb id (memoryStore s) with
  | Some entry =>
      let entry' := {| e_vector := e_vector entry;
                       e_metadata := spread (e_metadata entry) metadata;
                       e_timestamp := e_timestamp entry; e_id := e_id entry |} in
      (true, set_memoryStore (JMap.set Nat.eqb id entry' (memoryStore s)) s)
  | None => (false, s)
  end.

(** *** Snapshots *)

(** An element of the snapshot's [memoryStore] array; [x_vector] is the
    element's [vector] as [new Float32Array(entry.vector)] reads it. *)
Record XEntry : Type := {
  x_id : nat;
  x_vector : list F;
  x_metadata : Obj;
  x_timestamp : nat
}.

Record Config : Type := {
  c_dimension : nat;
  c_maxElements : nat;
  c_m : nat;
  c_efConstruction : nat;
  c_efSearch : nat
}.

(** The object [import] receives; a missing field is [None]. *)
Record Snapshot : Type := {
  snap_memoryStore : option (list XEntry);
  snap_reasoningBank : option (list (string * REntry));
  snap_currentId : option nat;
  snap_config : option Config
}.

(** [export()]. *)
Definition export (s : AgentDB) : Snapshot :=
  {| snap_memoryStore :=
       Some (map (fun p => {| x_id := fst p; x_vector := e_vector (snd p);
                              x_metadata := e_metadata (snd p);
                              x_timestamp := e_timestamp (snd p) |})
                 (memoryStore s));
     snap_reasoningBank := Some (reasoningBank s);
     snap_currentId := Some (currentId s);
     snap_config :=
       Some {| c_dimension := dimension s; c_maxElements := maxElements s;
               c_m := m s; c_efConstruction := efConstruction s;
               c_efSearch := efSearch s |} |}.

(** The loop of [import] over [data.memoryStore]: each entry is added
    again with [addVector], which gives it the next id; [clock i] is the
    reading of [Date.now()] for the [i]-th entry.  An exception ends the
    loop and the call. *)
Fixpoint import_entries (clock : nat -> nat) (i : nat) (entries : list XEntry)
  (s : AgentDB) : Result unit * AgentDB :=
  match entries with
  | [] => (Ok tt, s)
  | entry :: rest =>
      match addVector (Float32Array (x_vector entry)) (x_metadata entry)
              (clock i) s with
      | (Ok _, s') => import_entries clock (S i) rest s'
      | (Throw e, s') => (Throw e, s')
      end
  end.

(** [import(data)]. *)
Definition import (data : Snapshot) (clock : nat -> nat) (s : AgentDB)
  : Result unit * AgentDB :=
  let s1 := clear s in
  let s2 := match snap_config data with
            | Some c => set_config (c_dimension c) (c_maxElements c) s1
            | None => s1
            end in
  let restored := match snap_memoryStore data with
                  | Some entries => import_entries clock 0 entries s2
                  | None => (Ok tt, s2)
                  end in
  match restored with
  | (Throw e, s3) => (Throw e, s3)
  | (Ok _, s3) =>
      let s4 := match snap_reasoningBank data with
                | Some pairs =>
                    set_reasoningBank (JMap.of_list String.eqb pairs) s3
                | None => s3
                end in
      (Ok tt, set_currentId (js_or (snap_currentId data) (currentId s4)) s4)
  end.

End Model.

(** A [Float32Array] is passed as it is. *)
Coercion Float32Array : list >-> VectorArg.

(** ** Sequences of calls between two resets

    The methods other than [clear] and [import], and what a caller sees of
    each call as far as identifiers go. *)

Section Calls.
Variable F : Type.

Inductive Call : Type :=
| CallAddVector (vector : VectorArg F) (metadata : Obj) (now : nat)
| CallSearch (query : VectorArg F) (k : nat)
| CallAddReasoning (context reasoning : JsString) (metadata : Obj)
    (now : nat) (suffix : string) (now' : nat)
| CallGetReasoning (id : string)
| CallSearchReasoning (searchTerm : JsString)
| CallGetStats
| CallDeleteVector (id : nat)
| CallUpdateMetadata (id : nat) (metadata : Obj)
| CallExport.

Inductive Event : Type :=
| Added (id : nat)
| AddFailed (e : Error)
| Deleted (id : nat) (existed : bool)
| Other.

(** One call: the event and the state it leaves.  The reading methods
    leave the state as it is. *)
Definition call (c : Call) (s : AgentDB F) : Event * AgentDB F :=
  match c with
  | CallAddVector vector metadata now =>
      match addVector vector metadata now s with
      | (Ok id, s') => (Added id, s')
      | (Throw e, s') => (AddFailed e, s')
      end
  | CallAddReasoning context reasoning metadata now suffix now' =>
      (Other, snd (addReasoning context reasoning metadata now suffix now' s))
  | CallDeleteVector id =>
      let r := deleteVector id s in (Deleted id (fst r), snd r)
  | CallUpdateMetadata id metadata =>
      (Other, snd (updateMetadata id metadata s))
  | CallSearch _ _ | CallGetReasoning _ | CallSearchReasoning _
  | CallGetStats | CallExport => (Other, s)
  end.

Fixpoint run (calls : list Call) (s : AgentDB F) : list Event * AgentDB F :=
  match calls with
  | [] => ([], s)
  | c :: rest =>
      let r := call c s in
      let r' := run rest (snd r) in
      (fst r :: fst r', snd r')
  end.


(** Every id of the metadata store is below the counter. *)
Definition ids_below_counter (s : AgentDB F) : Prop :=
  forall id, JMap.has Nat.eqb id (memoryStore s) = true -> id < currentId s.

(** The index and the metadata store hold the same ids, in the same order,
    with the same vectors, and the index has the facade's dimension: the
    state of a store on which [deleteVector] never removed anything. *)
Definition in_sync (s : AgentDB F) : Prop :=
  h_dim (index s) = dimension s /\
  h_points (index s) = map (fun p => (fst p, e_vector (snd p))) (memoryStore s).

(** What [addVector] never changes: the configuration and the
    construction parameters of the index. *)
Definition same_config (s s' : AgentDB F) : Prop :=
  dimension s' = dimension s /\ maxElements s' = maxElements s /\
  m s' = m s /\ efConstruction s' = efConstruction s /\
  efSearch s' = efSearch s /\
  h_dim (index s') = h_dim (index s) /\
  h_maxElements (index s') = h_maxElements (index s) /\
  h_m (index s') = h_m (index s) /\
  h_efConstruction (index s') = h_efConstruction (index s) /\
  h_ef (index s') = h_ef (index s).

(** The object [{}]: a snapshot with every field missing. *)
Definition empty_snapshot : Snapshot F :=
  {| snap_memoryStore := None; snap_reasoningBank := None;
     snap_currentId := None; snap_config := None |}.

End Calls.

(** ** Words of the specification about search results *)

Section Ranking.
Variables F D : Type.
Variable dleb : D -> D -> bool.

(** Ascending distance order: each distance is at most the next one. *)
Definition ascending (distances : list D) : Prop :=
  Sorted (fun a b => dleb a b = true) distances.

(** What a caller compares of two search results: everything but the
    time at which the record was (re-)added. *)
Definition untimed (r : SearchResult F D)
  : nat * D * option (list F) * option Obj :=
  (sr_id r, sr_distance r, sr_vector r, sr_metadata r).

Definition same_results (a b : Result (list (SearchResult F D))) : Prop :=
  match a, b with
  | Ok ra, Ok rb => map untimed ra = map untimed rb
  | Throw ea, Throw eb => ea = eb
  | _, _ => False
  end.

End Ranking.

Section Dense.
Variable F : Type.

(** The ids of the metadata store are 0, 1, ..., n-1 in insertion order,
    each record carries its own id and a vector of the configured
    dimension, and the index agrees with the store: the state of a store
    on which vectors were added and nothing was deleted. *)
Definition dense (s : AgentDB F) : Prop :=
  in_sync s /\
  JMap.keys (memoryStore s) = seq 0 (List.length (memoryStore s)) /\
  Forall (fun p => e_id (snd p) = fst p /\
                   List.length (e_vector (snd p)) = dimension s)
         (memoryStore s).

(** The records [import] writes when it adds the records [rest] again:
    the next ids from [base] on, and the clock readings from [j] on. *)
Fixpoint readded (clock : nat -> nat) (j base : nat)
  (rest : list (nat * VEntry F)) : list (nat * VEntry F) :=
  match rest with
  | [] => []
  | p :: rest' =>
      (base, {| e_vector := e_vector (snd p); e_metadata := e_metadata (snd p);
                e_timestamp := clock j; e_id := base |})
      :: readded clock (S j) (S base) rest'
  end.

(** The element of a snapshot [export] writes for a record. *)
Definition exported (p : nat * VEntry F) : XEntry F :=
  {| x_id := fst p; x_vector := e_vector (snd p);
     x_metadata := e_metadata (snd p); x_timestamp := e_timestamp (snd p) |}.

(** Two records that differ at most in their timestamp. *)
Definition same_record (e e' : VEntry F) : Prop :=
  e_vector e' = e_vector e /\ e_metadata e' = e_metadata e /\
  e_id e' = e_id e.

(** A dense store whose counter is the number of its records: what the
    constructor builds and successful [addVector] calls keep. *)
Definition pristine (s : AgentDB F) : Prop :=
  dense s /\ currentId s = List.length (memoryStore s).

End Dense.

(** ** A concrete instance, to run the methods

    Integer scalars and the squared Euclidean distance.  The statements
    below that are generic hold for every metric; the runs use inputs on
    which the ranking is the same under the cosine distance. *)

Definition l2sq (a b : list Z) : Z :=
  fold_right Z.add 0%Z (map (fun p => (fst p - snd p) * (fst p - snd p))%Z (combine a b)).

Definition opts (dim : nat) : Options :=
  {| o_dimension := Some dim; o_maxElements := None; o_m := None;
     o_efConstruction := None; o_efSearch := None |}.

(** [new AgentDB({ dimension: dim })]. *)
Definition db_of_dim (dim : nat) : AgentDB Z := new_AgentDB Z (opts dim).

Definition zsearch := search l2sq Z.leb.

(** The state after the call, whatever its outcome. *)
Definition after {A} (r : A * AgentDB Z) : AgentDB Z := snd r.

(** *** Stores and snapshots used in the runs *)

(** [new AgentDB({ dimension: 2 })], then [addVector([1, 0], {})]. *)
Definition one_vector : AgentDB Z :=
  after (addVector [1; 0]%Z [] 1 (db_of_dim 2)).

(** [one_vector], then [deleteVector(0)]. *)
Definition one_deleted : AgentDB Z := after (deleteVector 0 one_vector).

(** [addVector([1, 0])] (id 0), then [addVector([0, 1])] (id 1). *)
Definition two_vectors : AgentDB Z :=
  after (addVector [0; 1]%Z [] 2 one_vector).

(** ... then [deleteVector(0)]. *)
Definition first_deleted : AgentDB Z := after (deleteVector 0 two_vectors).

(** [const snap = db.export(); db.clear(); db.import(snap)] on
    [first_deleted]. *)
Definition reimported : Result unit * AgentDB Z :=
  import (export first_deleted) (fun _ => 9) (clear first_deleted).

(** A store of dimension 3 with one vector, and its snapshot. *)
Definition snapshot_dim3 : Snapshot Z :=
  export (after (addVector [1; 2; 3]%Z [] 1 (db_of_dim 3))).

(** A snapshot with three entries whose counter says 2. *)
Definition snapshot_low_counter : Snapshot Z :=
  {| snap_memoryStore :=
       Some [ {| x_id := 0; x_vector := [1; 0]%Z; x_metadata := [];
                 x_timestamp := 1 |};
              {| x_id := 1; x_vector := [0; 1]%Z; x_metadata := [];
                 x_timestamp := 2 |};
              {| x_id := 2; x_vector := [1; 1]%Z; x_metadata := [];
                 x_timestamp := 3 |} ];
     snap_reasoningBank := None;
     snap_currentId := Some 2;
     snap_config := None |}.

Definition after_low_counter : AgentDB Z :=
  after (import snapshot_low_counter (fun _ => 4) (db_of_dim 2)).

(** A record with metadata [{ a: 1 }]. *)
Definition with_a1 : AgentDB Z :=
  after (addVector [1; 0]%Z [("a"%string, JNum 1)] 1 (db_of_dim 2)).

(** *** [toLowerCase] on the letters of the runs

    [String.prototype.toLowerCase] on ASCII strings and on strings made
    of spaces and of the letters A-Z, a-z, E acute (capital U+00C9 = 201,
    small U+00E9 = 233), alpha (capital U+0391 = 913, small U+03B1 = 945)
    and sigma (capital U+03A3 = 931, small U+03C3 = 963, final
    U+03C2 = 962).  A-Z, capital E acute and capital alpha go to their
    small letters.  A capital sigma goes to the final sigma when a letter
    comes before it and none after it (Unicode SpecialCasing,
    Final_Sigma), and to the small sigma otherwise.  The other code
    units stay. *)
Definition is_letter (c : N) : bool :=
  (((65 <=? c) && (c <=? 90)) || ((97 <=? c) && (c <=? 122)) ||
   (c =? 201) || (c =? 233) ||
   (c =? 913) || (c =? 931) || (c =? 945) || (c =? 962) || (c =? 963))%N.

Definition lower_letter (c : N) : N :=
  if (c =? 201)%N then 233%N
  else if (c =? 913)%N then 945%N
  else lower_unit c.

Fixpoint lower_from (after_letter : bool) (s : JsString) : JsString :=
  match s with
  | [] => []
  | c :: rest =>
      (if (c =? 931)%N then
         if after_letter &&
            negb (match rest with d :: _ => is_letter d | [] => false end)
         then 962%N else 963%N
       else lower_letter c)
      :: lower_from (is_letter c) rest
  end.

Definition toLowerCase_sample (s : JsString) : JsString := lower_from false s.

(** [addReasoning] of the context capital alpha, capital sigma and an
    empty reasoning, on a new store. *)
Definition with_alpha_sigma : AgentDB Z :=
  snd (addReasoning [913; 931]%N [] [] 1 "k3x"%string 1 (db_of_dim 2)).

(** [addReasoning] of the context capital E acute and an empty
    reasoning, on a new store. *)
Definition with_e_acute : AgentDB Z :=
  snd (addReasoning [201]%N [] [] 1 "k3x"%string 1 (db_of_dim 2)).

(** ** Sequences of calls with the two resets *)

Section Ops.
Variable F : Type.

(** Any method of the facade: one of [Call], [clear()] or [import(data)]. *)
Inductive Op : Type :=
| OpCall (c : Call F)
| OpClear
| OpImport (data : Snapshot F) (clock : nat -> nat).

(** The state a method leaves, whether it returns or throws. *)
Definition exec_op (o : Op) (s : AgentDB F) : AgentDB F :=
  match o with
  | OpCall c => snd (call c s)
  | OpClear => clear s
  | OpImport data clock => snd (import data clock s)
  end.

Definition exec (ops : list Op) (s : AgentDB F) : AgentDB F :=
  fold_left (fun acc o => exec_op o acc) ops s.

(** What holds of the two maps in every state the methods can reach: the
    keys of each are distinct, and every record of the metadata store
    carries the id it is stored under and a vector of the configured
    dimension. *)
Definition store_invariant (s : AgentDB F) : Prop :=
  JMap.wf (memoryStore s) /\
  JMap.wf (reasoningBank s) /\
  Forall (fun p => e_id (snd p) = fst p /\
                   List.length (e_vector (snd p)) = dimension s)
         (memoryStore s).

(** What [export] and [import] carry of a record. *)
Definition payload (p : nat * VEntry F) : list F * Obj :=
  (e_vector (snd p), e_metadata (snd p)).

End Ops.

Section Ranked.
Variables F D : Type.

(** The ids and distances of a search outcome, in order; an exception is
    kept as it is. *)
Definition ranking (r : Result (list (SearchResult F D)))
  : Result (list (nat * D)) :=
  match r with
  | Ok results => Ok (map (fun x => (sr_id x, sr_distance x)) results)
  | Throw e => Throw e
  end.

End Ranked.

(** ** The utilities of [src/utils.js]

    JS numbers are binary64 floats: Rocq's primitive floats with their
    IEEE 754 operations.  A [Float32Array] is a list of floats in which
    every write rounds to binary32 ([Math.fround]). *)

Module Utils.
Import PrimFloat.
Local Open Scope float_scope.

(** [Math.fround]: rounding to the nearest binary32 value, ties to even;
    infinities, zeros and NaN are kept. *)
Definition fround (x : float) : float :=
  match FloatOps.Prim2SF x with
  | SpecFloat.S754_finite s mx ex =>
      FloatOps.SF2Prim (SpecFloat.binary_round 24 128 s mx ex)
  | _ => x
  end.

(** A char code (or any small natural number) as a JS number. *)
Definition of_nat (n : nat) : float := of_uint63 (Uint63.of_Z (Z.of_nat n)).

(** [text.charCodeAt(i)] for [i = 0, 1, ...]. *)
Definition charCodes (text : string) : list nat :=
  map nat_of_ascii (list_ascii_of_string text).

(** [vector[i] = f(vector[i])] on a typed array: an index outside the
    array is ignored. *)
Fixpoint update_at (i : nat) (f : float -> float) (vector : list float)
  : list float :=
  match vector, i with
  | [], _ => []
  | x :: rest, O => f x :: rest
  | x :: rest, S i' => x :: update_at i' f rest
  end.

(** The first loop of [simpleTextEmbedding], from position [i] on:
    [vector[(charCode * (i + 1)) % dimension] += charCode / 255.0]. *)
Fixpoint accumulate (codes : list nat) (i dimension : nat)
  (vector : list float) : list float :=
  match codes with
  | [] => vector
  | charCode :: rest =>
      let idx := (charCode * (i + 1)) mod dimension in
      accumulate rest (S i) dimension
        (update_at idx (fun x => fround (x + of_nat charCode / 255)) vector)
  end.

(** [Math.sqrt(vector.reduce((sum, val) => sum + val * val, 0))]. *)
Definition magnitude (vector : list float) : float :=
  sqrt (fold_left (fun sum val => sum + val * val) vector 0).

(** [simpleTextEmbedding(text, dimension)]. *)
Definition simpleTextEmbedding (text : string) (dimension : nat)
  : list float :=
  let vector := accumulate (charCodes text) 0 dimension (repeat 0 dimension) in
  let mag := magnitude vector in
  if 0 <? mag then map (fun x => fround (x / mag)) vector else vector.

(** [randomEmbedding(dimension)]; [random i] is the [i]-th value of
    [Math.random()].  The division is not guarded. *)
Definition randomEmbedding (random : nat -> float) (dimension : nat)
  : list float :=
  let vector := map (fun i => fround (random i * 2 - 1)) (seq 0 dimension) in
  let mag := magnitude vector in
  map (fun x => fround (x / mag)) vector.

(** The loop of [cosineSimilarity] with its three accumulators; it runs
    over [a.length] positions and is only reached with [b] of the same
    length. *)
Fixpoint cosine_sums (a b : list float) (dotProduct magA magB : float)
  : float * float * float :=
  match a, b with
  | x :: a', y :: b' =>
      cosine_sums a' b' (dotProduct + x * y) (magA + x * x) (magB + y * y)
  | _, _ => (dotProduct, magA, magB)
  end.

(** [cosineSimilarity(a, b)]; [None] is the one [throw]. *)
Definition cosineSimilarity (a b : list float) : option float :=
  if negb (List.length a =? List.length b)%nat then None
  else
    let '(dotProduct, magA, magB) := cosine_sums a b 0 0 0 in
    Some (dotProduct / (sqrt magA * sqrt magB)).

End Utils.

(** ** The agent of the memory example and the cleanup of the advanced demo *)

Module Agent.

(** The fields of an [AIAgent]; [memory] is the store it was given. *)
Record AIAgent : Type := {
  name : string;
  memory : AgentDB PrimFloat.float;
  conversationCount : nat
}.

(** [remember(content, type)]; [iso] is [new Date().toISOString()] and
    [now] the reading of [Date.now()] inside [addVector].  The embedding
    is made with the default dimension 384. *)
Definition remember (content type iso : string) (now : nat) (a : AIAgent)
  : Result nat * AIAgent :=
  let count := S (conversationCount a) in
  let embedding := Utils.simpleTextEmbedding content 384 in
  let r := addVector embedding
             [("content", JStr content); ("type", JStr type);
              ("agent", JStr (name a));
              ("conversation", JNum (Z.of_nat count));
              ("timestamp", JStr iso)]%string
             now (memory a) in
  (fst r, {| name := name a; memory := snd r; conversationCount := count |}).

(** [recordReasoning(situation, thinking)]. *)
Definition recordReasoning (situation thinking : JsString) (iso : string)
  (now : nat) (suffix : string) (now' : nat) (a : AIAgent)
  : string * AIAgent :=
  let r := addReasoning situation thinking
             [("agent", JStr (name a)); ("timestamp", JStr iso)]%string
             now suffix now' (memory a) in
  (fst r, {| name := name a; memory := snd r;
             conversationCount := conversationCount a |}).

(** [getMemoryStats()]. *)
Definition getMemoryStats (a : AIAgent) : Stats := getStats (memory a).

End Agent.

Section Cleanup.
Variable F : Type.

(** [entry.metadata.batch === 100]. *)
Definition is_batch_100 (e : VEntry F) : bool :=
  match JMap.get String.eqb "batch"%string (e_metadata e) with
  | Some (JNum 100) => true
  | _ => false
  end.

(** The cleanup loop of the advanced demo: it goes through the entries of
    [db.memoryStore] and calls [deleteVector] on those of batch 100,
    counting them.  Deleting the entry the iterator stands on does not
    disturb the rest of the iteration, so the loop sees the entries the
    store had when it started. *)
Definition cleanup_batch_100 (s : AgentDB F) : nat * AgentDB F :=
  fold_left
    (fun acc p =>
       if is_batch_100 (snd p)
       then (S (fst acc), snd (deleteVector (fst p) (snd acc)))
       else acc)
    (memoryStore s) (0, s).

End Cleanup.

(** *** A store with two batches, for the cleanup loop *)

Definition two_batches : AgentDB Z :=
  after (addVector [0; 1]%Z [("batch"%string, JNum 500)] 2
    (after (addVector [1; 0]%Z [("batch"%string, JNum 100)] 1 (db_of_dim 2)))).

Module FloatRuns.
Import PrimFloat.

(** The state after [addVector([16777217, 0])], a plain array, on
    [new AgentDB({ dimension: 2 })]; 16777217 is not a single-precision
    value. *)
Definition plain_array_added : AgentDB PrimFloat.float :=
  snd (addVector (PlainArray Utils.fround [16777217; 0]%float) [] 1
         (new_AgentDB PrimFloat.float (opts 2))).

End FloatRuns.

(** * Properties *)

(** ** Insertion-ordered maps *)

Section JMapFacts.
Variables K V : Type.
Variable eqb : K -> K -> bool.
#[local] Abbreviation get := (@JMap.get K V eqb).
#[local] Abbreviation has := (@JMap.has K V eqb).
#[local] Abbreviation set := (@JMap.set K V eqb).
#[local] Abbreviation delete := (@JMap.delete K V eqb).
#[local] Abbreviation set_all := (@JMap.set_all K V eqb).
#[local] Abbreviation keys := (@JMap.keys K V).
#[local] Abbreviation wf := (@JMap.wf K V).
Hypothesis eqb_spec : forall a b, reflect (a = b) (eqb a b).

Lemma jmap_eqb_refl k : eqb k k = true.
Proof. destruct (eqb_spec k k); congruence. Qed.

Lemma jmap_get_set_same k v l : get k (set k v l) = Some v.
Proof.
  induction l as [|[k' v'] l IH]; simpl.
  - now rewrite jmap_eqb_refl.
  - destruct (eqb k k') eqn:E; simpl.
    + now rewrite jmap_eqb_refl.
    + now rewrite E.
Qed.

Lemma jmap_get_set_other k k' v l : k' <> k -> get k' (set k v l) = get k' l.
Proof.
  intros Hne. induction l as [|[k0 v0] l IH]; simpl.
  - destruct (eqb_spec k' k); [contradiction|reflexivity].
  - destruct (eqb_spec k k0) as [->|Hk]; simpl.
    + destruct (eqb_spec k' k0); [contradiction|reflexivity].
    + destruct (eqb k' k0); [reflexivity|exact IH].
Qed.

Lemma jmap_get_delete_same k l : get k (delete k l) = None.
Proof.
  induction l as [|[k' v'] l IH]; simpl; [reflexivity|].
  destruct (eqb k k') eqn:E; simpl; [exact IH|].
  now rewrite E.
Qed.

Lemma jmap_get_delete_other k k' l : k' <> k -> get k' (delete k l) = get k' l.
Proof.
  intros Hne. induction l as [|[k0 v0] l IH]; simpl; [reflexivity|].
  destruct (eqb_spec k k0) as [->|Hk]; simpl.
  - destruct (eqb_spec k' k0); [contradiction|exact IH].
  - destruct (eqb k' k0); [reflexivity|exact IH].
Qed.

Lemma jmap_delete_absent k l : get k l = None -> delete k l = l.
Proof.
  induction l as [|[k' v'] l IH]; simpl; [reflexivity|].
  destruct (eqb k k') eqn:E; simpl; [discriminate|].
  intros H. now rewrite IH.
Qed.

Lemma jmap_get_In k v l : get k l = Some v -> In (k, v) l.
Proof.
  induction l as [|[k' v'] l IH]; simpl; [discriminate|].
  destruct (eqb_spec k k') as [->|Hk].
  - intros [= ->]. now left.
  - intros H. right. now apply IH.
Qed.

Lemma jmap_get_None_keys k l : get k l = None <-> ~ In k (keys l).
Proof.
  induction l as [|[k' v'] l IH]; simpl.
  - tauto.
  - destruct (eqb_spec k k') as [->|Hk].
    + split; [discriminate|]. intros H. exfalso. apply H. now left.
    + rewrite IH. split.
      * intros H [E|Hin]; [now apply Hk|now apply H].
      * intros H Hin. apply H. now right.
Qed.

Lemma jmap_In_get k v l : wf l -> In (k, v) l -> get k l = Some v.
Proof.
  unfold wf, keys. induction l as [|[k' v'] l IH]; simpl; [tauto|].
  intros Hnd [E|Hin].
  - injection E as -> ->. now rewrite jmap_eqb_refl.
  - inversion Hnd as [|? ? Hnotin Hnd']; subst.
    destruct (eqb_spec k k') as [->|Hk].
    + exfalso. apply Hnotin. now apply (in_map fst) in Hin.
    + now apply IH.
Qed.

Lemma jmap_keys_set_present k v l :
  get k l <> None -> keys (set k v l) = keys l.
Proof.
  induction l as [|[k' v'] l IH]; simpl; [congruence|].
  destruct (eqb_spec k k') as [->|Hk]; simpl; [reflexivity|].
  intros H. now rewrite IH.
Qed.

Lemma jmap_set_absent k v l : get k l = None -> set k v l = l ++ [(k, v)].
Proof.
  induction l as [|[k' v'] l IH]; simpl; [reflexivity|].
  destruct (eqb k k'); [discriminate|].
  intros H. now rewrite IH.
Qed.

Lemma jmap_keys_set k v l :
  keys (set k v l) = if has k l then keys l else keys l ++ [k].
Proof.
  unfold has. destruct (get k l) eqn:E.
  - apply jmap_keys_set_present. congruence.
  - rewrite jmap_set_absent by assumption. unfold keys. now rewrite map_app.
Qed.

Lemma jmap_wf_set k v l : wf l -> wf (set k v l).
Proof.
  unfold wf. intros H. rewrite jmap_keys_set. unfold has.
  destruct (get k l) eqn:E; [assumption|].
  apply jmap_get_None_keys in E.
  apply NoDup_rev in H. rewrite <- (rev_involutive (keys l ++ [k])).
  apply NoDup_rev. rewrite rev_app_distr. simpl. constructor; [|assumption].
  now rewrite <- in_rev.
Qed.

Lemma jmap_wf_delete k l : wf l -> wf (delete k l).
Proof.
  unfold wf, keys, delete. induction l as [|[k' v'] l IH]; simpl; [auto|].
  intros H. inversion H as [|? ? Hnotin Hnd]; subst.
  destruct (eqb k k'); simpl; [now apply IH|].
  constructor; [|now apply IH].
  intros Hin. apply Hnotin. apply in_map_iff in Hin.
  destruct Hin as [p [Hp Hin]]. apply filter_In in Hin.
  apply in_map_iff. exists p. tauto.
Qed.

Lemma jmap_wf_set_all a b : wf a -> wf (set_all a b).
Proof.
  unfold set_all. revert a. induction b as [|[k v] b IH]; simpl; [auto|].
  intros a H. apply IH. now apply jmap_wf_set.
Qed.

(** Reading a key of a spread [{...a, ...b}]: the value of [b] when [b]
  has the key, the value of [a] otherwise. *)
Lemma jmap_get_set_all k a b :
  wf b ->
  get k (set_all a b) =
  match get k b with Some v => Some v | None => get k a end.
Proof.
  unfold set_all, wf, keys. revert a.
  induction b as [|[k' v'] b IH]; simpl; intros a Hnd; [reflexivity|].
  inversion Hnd as [|? ? Hnotin Hnd']; subst.
  rewrite IH by assumption.
  destruct (eqb_spec k k') as [->|Hk].
  - apply jmap_get_None_keys in Hnotin. rewrite Hnotin. apply jmap_get_set_same.
  - destruct (get k b); [reflexivity|]. now apply jmap_get_set_other.
Qed.
End JMapFacts.

(** ** The facade: frame lemmas *)

Section StoreFacts.
Variable F : Type.
Implicit Types s : AgentDB F.

Lemma nat_eqb_spec : forall a b : nat, reflect (a = b) (a =? b).
Proof. exact Nat.eqb_spec. Qed.

Lemma string_eqb_spec : forall a b : string, reflect (a = b) (String.eqb a b).
Proof. exact String.eqb_spec. Qed.

(** [addVector] sees its argument through the conversion only. *)
Lemma addVector_float32Array s (vector : VectorArg F) md now :
  addVector vector md now s = addVector (float32Array vector) md now s.
Proof. reflexivity. Qed.

Lemma search_float32Array (D : Type) (dist : list F -> list F -> D) dleb
  s (query : VectorArg F) k :
  search dist dleb query k s = search dist dleb (float32Array query) k s.
Proof. reflexivity. Qed.

(** [addVector] on a vector of the wrong length: the exception, and the
    state with the counter already incremented. *)
Lemma addVector_mismatch s (v : list F) md now :
  List.length v <> dimension s ->
  addVector v md now s =
    (Throw (VectorDimension (List.length v) (dimension s)),
     set_currentId (S (currentId s)) s).
Proof.
  intros H. unfold addVector. simpl.
  destruct (Nat.eqb_spec (List.length v) (dimension s)); [contradiction|].
  reflexivity.
Qed.

Lemma same_config_refl s : same_config s s.
Proof. unfold same_config. tauto. Qed.

Lemma same_config_trans s1 s2 s3 :
  same_config s1 s2 -> same_config s2 s3 -> same_config s1 s3.
Proof. unfold same_config. intuition congruence. Qed.

Lemma addVector_same_config s (v : VectorArg F) md now :
  same_config s (snd (addVector v md now s)).
Proof.
  rewrite addVector_float32Array. generalize (float32Array v).
  clear v. intros v.
  unfold addVector, addPoint. simpl.
  destruct (List.length v =? dimension s); simpl;
    [|unfold same_config; simpl; tauto].
  destruct (List.length v =? h_dim (index s)); simpl;
    unfold same_config; simpl; tauto.
Qed.

Lemma import_entries_same_config clock (entries : list (XEntry F)) :
  forall i s, same_config s (snd (import_entries clock i entries s)).
Proof.
  induction entries as [|x rest IH]; intros i s; simpl.
  - apply same_config_refl.
  - pose proof (addVector_same_config s (x_vector x) (x_metadata x) (clock i)) as H.
    destruct (addVector (x_vector x) (x_metadata x) (clock i) s) as [[id|e] s'];
      simpl in *; [|exact H].
    eapply same_config_trans; [exact H|apply IH].
Qed.

Lemma clear_idempotent s : clear (clear s) = clear s.
Proof. reflexivity. Qed.

End StoreFacts.

(** ** [deleteVector], [updateMetadata], [addVector], [import] *)

Section FacadeClaims.
Variable F : Type.
Implicit Types s : AgentDB F.

(** C7: [deleteVector(id)] returns true exactly when the metadata store has
    a record with that id at the time of the call, and then that record is
    gone while every other record stays; when it returns false the state is
    unchanged; a second [deleteVector] on the same id returns false and
    leaves the state as the first call left it. *)
Theorem deleteVector_idempotent s (id : nat) :
  let r1 := deleteVector id s in
  let r2 := deleteVector id (snd r1) in
  fst r1 = JMap.has Nat.eqb id (memoryStore s) /\
  JMap.has Nat.eqb id (memoryStore (snd r1)) = false /\
  (forall id', id' <> id ->
     JMap.get Nat.eqb id' (memoryStore (snd r1)) =
     JMap.get Nat.eqb id' (memoryStore s)) /\
  (fst r1 = false -> snd r1 = s) /\
  fst r2 = false /\
  snd r2 = snd r1.
Proof.
  assert (Hgone : JMap.has Nat.eqb id (memoryStore (snd (deleteVector id s))) = false).
  { unfold deleteVector.
    destruct (JMap.has Nat.eqb id (memoryStore s)) eqn:E; simpl; [|exact E].
    unfold JMap.has. now rewrite (jmap_get_delete_same Nat.eqb). }
  cbv zeta. repeat split.
  - unfold deleteVector. now destruct (JMap.has Nat.eqb id (memoryStore s)).
  - exact Hgone.
  - intros id' Hne. unfold deleteVector.
    destruct (JMap.has Nat.eqb id (memoryStore s)); simpl; [|reflexivity].
    now apply (jmap_get_delete_other _ nat_eqb_spec).
  - unfold deleteVector.
    destruct (JMap.has Nat.eqb id (memoryStore s)); simpl; [discriminate|reflexivity].
  - unfold deleteVector at 1. now rewrite Hgone.
  - unfold deleteVector at 1. now rewrite Hgone.
Qed.

(** C6: for an existing id with stored metadata M and an update U (an
    object, so with distinct keys), [updateMetadata(id, U)] returns true
    and the record's metadata becomes the shallow merge: every key of U
    reads U's value, every key absent from U reads what it read in M; the
    vector, timestamp and id of the record and all other records are kept.
    For a nonexistent id it returns false and changes nothing. *)
Theorem updateMetadata_shallow_merge s (id : nat) (U : Obj) :
  JMap.wf U ->
  let r := updateMetadata id U s in
  match JMap.get Nat.eqb id (memoryStore s) with
  | Some e =>
      fst r = true /\
      (exists e',
         JMap.get Nat.eqb id (memoryStore (snd r)) = Some e' /\
         e_metadata e' = spread (e_metadata e) U /\
         e_vector e' = e_vector e /\ e_timestamp e' = e_timestamp e /\
         e_id e' = e_id e /\
         (forall k v, JMap.get String.eqb k U = Some v ->
                      JMap.get String.eqb k (e_metadata e') = Some v) /\
         (forall k, JMap.get String.eqb k U = None ->
                    JMap.get String.eqb k (e_metadata e') =
                    JMap.get String.eqb k (e_metadata e))) /\
      (forall id', id' <> id ->
         JMap.get Nat.eqb id' (memoryStore (snd r)) =
         JMap.get Nat.eqb id' (memoryStore s))
  | None => r = (false, s)
  end.
Proof.
  intros HU. cbv zeta. unfold updateMetadata.
  destruct (JMap.get Nat.eqb id (memoryStore s)) as [e|] eqn:E; [|reflexivity].
  simpl. split; [reflexivity|]. split.
  - eexists. split; [apply (jmap_get_set_same _ nat_eqb_spec)|]. simpl.
    repeat split.
    + intros k v Hk. unfold spread.
      rewrite (jmap_get_set_all _ string_eqb_spec) by exact HU. now rewrite Hk.
    + intros k Hk. unfold spread.
      rewrite (jmap_get_set_all _ string_eqb_spec) by exact HU. now rewrite Hk.
  - intros id' Hne. now apply (jmap_get_set_other _ nat_eqb_spec).
Qed.

(** C10: whatever the snapshot and whether [import] returns or throws, the
    store's [m], [efConstruction] and [efSearch] are those from before the
    call; [dimension] and [maxElements] are the snapshot's when it has a
    config; the index keeps the parameters [clear] built it with; and
    [export] writes all five parameters into the snapshot's config. *)
Theorem import_applies_dimension_and_maxElements
  (data : Snapshot F) (clock : nat -> nat) s :
  let s' := snd (import data clock s) in
  (m s' = m s /\ efConstruction s' = efConstruction s /\
   efSearch s' = efSearch s) /\
  match snap_config data with
  | Some c => dimension s' = c_dimension c /\ maxElements s' = c_maxElements c
  | None => dimension s' = dimension s /\ maxElements s' = maxElements s
  end /\
  (h_dim (index s') = dimension s /\ h_maxElements (index s') = maxElements s /\
   h_m (index s') = m s /\ h_efConstruction (index s') = efConstruction s /\
   h_ef (index s') = efSearch s) /\
  snap_config (export s) =
    Some {| c_dimension := dimension s; c_maxElements := maxElements s;
            c_m := m s; c_efConstruction := efConstruction s;
            c_efSearch := efSearch s |}.
Proof.
  cbv zeta. unfold import.
  set (s2 := match snap_config data with
             | Some c => set_config (c_dimension c) (c_maxElements c) (clear s)
             | None => clear s
             end).
  assert (H2 : m s2 = m s /\ efConstruction s2 = efConstruction s /\
               efSearch s2 = efSearch s /\
               match snap_config data with
               | Some c => dimension s2 = c_dimension c /\
                           maxElements s2 = c_maxElements c
               | None => dimension s2 = dimension s /\
                         maxElements s2 = maxElements s
               end /\
               h_dim (index s2) = dimension s /\
               h_maxElements (index s2) = maxElements s /\
               h_m (index s2) = m s /\
               h_efConstruction (index s2) = efConstruction s /\
               h_ef (index s2) = efSearch s).
  { subst s2. destruct (snap_config data); simpl; tauto. }
  set (restored := match snap_memoryStore data with
                   | Some entries => import_entries clock 0 entries s2
                   | None => (Ok tt, s2)
                   end).
  assert (H3 : same_config s2 (snd restored)).
  { subst restored. destruct (snap_memoryStore data);
      [apply import_entries_same_config|apply same_config_refl]. }
  destruct restored as [[u|e] s3]; simpl in H3 |- *;
    unfold same_config in H3;
    destruct (snap_reasoningBank data); simpl;
    destruct (snap_config data); simpl; intuition congruence.
Qed.

End FacadeClaims.

(** ** [import] on a store that holds data *)

Section ImportClaims.
Variable F : Type.
Implicit Types s : AgentDB F.

(** C4 (amended): [import] clears the store first and never restores it.
    Its outcome and final state are those of the same call on the cleared
    store, so nothing of the prior index, metadata store, reasoning bank
    or counter survives, whether the call returns or throws.  A snapshot
    with missing fields is not rejected: without a [memoryStore] field the
    call returns normally and leaves the metadata store and the index
    empty, and for the object with no field at all the result is exactly
    the cleared store. *)
Theorem import_clears_first (data : Snapshot F) (clock : nat -> nat) s :
  import data clock s = import data clock (clear s) /\
  (snap_memoryStore data = None ->
     fst (import data clock s) = Ok tt /\
     memoryStore (snd (import data clock s)) = [] /\
     h_points (index (snd (import data clock s))) = []) /\
  import (empty_snapshot F) clock s = (Ok tt, clear s).
Proof.
  split; [reflexivity|]. split; [|reflexivity].
  intros H. unfold import. rewrite H.
  destruct (snap_config data), (snap_reasoningBank data); repeat split.
Qed.

End ImportClaims.

(** ** Identifiers over a sequence of calls *)

Section CounterClaims.
Variable F : Type.
Implicit Types s : AgentDB F.



(** [addVector]: a returned id is the counter before the call, and the
    counter after the call is one more, also when the call throws. *)
Lemma addVector_counter s (v : VectorArg F) md now :
  currentId (snd (addVector v md now s)) = S (currentId s) /\
  (forall id, fst (addVector v md now s) = Ok id -> id = currentId s).
Proof.
  rewrite addVector_float32Array. generalize (float32Array v).
  clear v. intros v.
  unfold addVector, addPoint. simpl.
  destruct (List.length v =? dimension s); simpl;
    [|split; [reflexivity|discriminate]].
  destruct (List.length v =? h_dim (index s)); simpl;
    (split; [reflexivity|]); [|discriminate].
  now intros id [= <-].
Qed.


Lemma call_counter (c : Call F) s :
  currentId s <= currentId (snd (call c s)) /\
  (forall id, fst (call c s) = Added id ->
     id = currentId s /\ currentId (snd (call c s)) = S id) /\
  (forall id, fst (call c s) = Deleted id true ->
     JMap.has Nat.eqb id (memoryStore s) = true).
Proof.
  destruct c; simpl;
    try (split; [lia|split; intros ? ?; discriminate]).
  - pose proof (addVector_counter s vector metadata now) as [H1 H2].
    destruct (addVector vector metadata now s) as [[id|e] s']; simpl in *.
    + split; [lia|split; [|intros ? ?; discriminate]].
      intros id' [= <-]. rewrite H1. specialize (H2 id eq_refl). now subst.
    + split; [lia|split; intros ? ?; discriminate].
  - unfold deleteVector.
    destruct (JMap.has Nat.eqb id (memoryStore s)) eqn:E; simpl;
      (split; [lia|split; [intros ? ?; discriminate|]]).
    + now intros id' [= <-].
    + intros ? ?; discriminate.
  - unfold updateMetadata.
    destruct (JMap.get Nat.eqb id (memoryStore s)); simpl;
      (split; [lia|split; intros ? ?; discriminate]).
Qed.


Lemma run_counter_mono (calls : list (Call F)) :
  forall s, currentId s <= currentId (snd (run calls s)).
Proof.
  induction calls as [|c rest IH]; intros s; simpl; [lia|].
  pose proof (call_counter c s) as [H _]. specialize (IH (snd (call c s))). lia.
Qed.





End CounterClaims.

(** ** Where the stored ids are below the counter *)

Section CounterInvariant.
Variable F : Type.
Implicit Types s : AgentDB F.








End CounterInvariant.

(** ** Strings: what [includes] decides, and ASCII case folding *)

Section StringFacts.

Lemma starts_with_iff (s t : JsString) :
  starts_with s t = true <-> exists post, s = t ++ post.
Proof.
  revert s. induction t as [|c t IH]; intros s; simpl.
  - split; [intros _; now exists s|reflexivity].
  - destruct s as [|d s].
    + split; [discriminate|intros [post H]; discriminate].
    + rewrite andb_true_iff, N.eqb_eq, IH. split.
      * intros [-> [post ->]]. now exists post.
      * intros [post [= -> ->]]. split; [reflexivity|now exists post].
Qed.

Lemma includes_iff (s t : JsString) :
  includes s t = true <-> occurs_in t s.
Proof.
  unfold occurs_in. induction s as [|c s IH].
  - cbn [includes]. rewrite orb_false_r, starts_with_iff. split.
    + intros [post H]. now exists [], post.
    + intros [[|c pre] [post H]]; [now exists post|discriminate].
  - cbn [includes]. rewrite orb_true_iff, starts_with_iff, IH. split.
    + intros [[post H]|[pre [post H]]].
      * now exists [], post.
      * exists (c :: pre), post. simpl. now rewrite H.
    + intros [[|c' pre] [post H]].
      * left. now exists post.
      * right. exists pre, post. simpl in H. congruence.
Qed.

Lemma map_split (f : N -> N) (s a' b' : JsString) :
  map f s = a' ++ b' ->
  exists a b, s = a ++ b /\ map f a = a' /\ map f b = b'.
Proof.
  revert s. induction a' as [|c a' IH]; intros s; simpl.
  - intros H. now exists [], s.
  - destruct s as [|d s]; simpl; [discriminate|].
    intros [= Hc Hs]. destruct (IH s Hs) as [a [b [-> [Ha Hb]]]].
    exists (d :: a), b. simpl. now rewrite Hc, Ha, Hb.
Qed.

Lemma is_upper_range (c : N) :
  is_upper c = true <-> (65 <= c <= 90)%N.
Proof.
  unfold is_upper. rewrite andb_true_iff, !N.leb_le. tauto.
Qed.

Lemma same_letter_iff (c d : N) :
  same_letter c d <-> lower_unit c = lower_unit d.
Proof.
  unfold same_letter, lower_unit. split.
  - intros [->|[[Hu ->]|[Hu ->]]]; [reflexivity| |]; rewrite Hu.
    + destruct (is_upper (c + 32)) eqn:E; [|reflexivity].
      apply is_upper_range in Hu, E. lia.
    + destruct (is_upper (d + 32)) eqn:E; [|reflexivity].
      apply is_upper_range in Hu, E. lia.
  - destruct (is_upper c) eqn:Ec, (is_upper d) eqn:Ed; intros H.
    + left. lia.
    + right. left. split; [reflexivity|now symmetry].
    + right. right. split; [reflexivity|exact H].
    + now left.
Qed.

Lemma ci_eq_iff (a b : JsString) :
  ci_eq a b <-> ascii_lower a = ascii_lower b.
Proof.
  unfold ci_eq, ascii_lower. split.
  - induction 1 as [|c d s t Hcd _ IH]; simpl; [reflexivity|].
    apply same_letter_iff in Hcd. now rewrite Hcd, IH.
  - revert b. induction a as [|c a IH]; intros [|d b]; simpl;
      try discriminate; [constructor|].
    intros [= Hc Hs]. constructor; [now apply same_letter_iff|now apply IH].
Qed.

(** With the ASCII folding on both sides, the test of the source is the
    specification's case-insensitive substring. *)
Lemma includes_ascii_lower_iff (s t : JsString) :
  includes (ascii_lower s) (ascii_lower t) = true <-> ci_substring t s.
Proof.
  rewrite includes_iff. unfold occurs_in, ci_substring, ascii_lower. split.
  - intros [pre' [post' H]].
    apply map_split in H. destruct H as [pre [rest [-> [Hpre H]]]].
    apply map_split in H. destruct H as [mid [post [-> [Hmid Hpost]]]].
    exists pre, mid, post. split; [reflexivity|]. now apply ci_eq_iff.
  - intros [pre [mid [post [-> H]]]]. apply ci_eq_iff in H.
    unfold ascii_lower in H.
    exists (map lower_unit pre), (map lower_unit post).
    now rewrite !map_app, H.
Qed.

End StringFacts.

(** ** The reasoning bank *)

Section ReasoningClaims.
Variable F : Type.
Variable toLowerCase : JsString -> JsString.
Implicit Types s : AgentDB F.

(** The term matches a field: its lower-casing is a substring of the
    field's. *)
Lemma reasoning_matches_iff (term : JsString) (e : REntry) :
  reasoning_matches toLowerCase term e = true <->
  occurs_in (toLowerCase term) (toLowerCase (r_context e)) \/
  occurs_in (toLowerCase term) (toLowerCase (r_reasoning e)).
Proof.
  unfold reasoning_matches. now rewrite orb_true_iff, !includes_iff.
Qed.

(** C8 (amended): for the built-in [toLowerCase], whatever it does,
    [searchReasoning(term)] returns the records of the bank, in the
    bank's (insertion) order, for which the lower-cased term is a
    substring of the lower-cased context or of the lower-cased
    reasoning, and no other; a record just added by [addReasoning] is
    returned for every such term, and when its id is new it comes last,
    after the earlier results; a term that matches neither field of any
    record gives the empty result.  On ASCII text, where [toLowerCase]
    folds A-Z unit by unit, the records returned are those for which the
    term is a case-insensitive substring of the context or of the
    reasoning. *)
Theorem searchReasoning_matches s (term : JsString) :
  (exists keep,
     searchReasoning toLowerCase term s = filter keep (reasoningBank s) /\
     forall p, keep p = true <->
       occurs_in (toLowerCase term) (toLowerCase (r_context (snd p))) \/
       occurs_in (toLowerCase term) (toLowerCase (r_reasoning (snd p)))) /\
  (forall id e,
     In (id, e) (searchReasoning toLowerCase term s) <->
     In (id, e) (reasoningBank s) /\
     (occurs_in (toLowerCase term) (toLowerCase (r_context e)) \/
      occurs_in (toLowerCase term) (toLowerCase (r_reasoning e)))) /\
  (forall context reasoning metadata now suffix now',
     let r := addReasoning context reasoning metadata now suffix now' s in
     let e := {| r_context := context; r_reasoning := reasoning;
                 r_metadata := metadata; r_timestamp := now' |} in
     (occurs_in (toLowerCase term) (toLowerCase context) \/
      occurs_in (toLowerCase term) (toLowerCase reasoning) ->
        In (fst r, e) (searchReasoning toLowerCase term (snd r))) /\
     (getReasoning (fst r) s = None ->
        searchReasoning toLowerCase term (snd r) =
          searchReasoning toLowerCase term s ++
          (if reasoning_matches toLowerCase term e then [(fst r, e)] else []))) /\
  ((forall id e, In (id, e) (reasoningBank s) ->
      ~ occurs_in (toLowerCase term) (toLowerCase (r_context e)) /\
      ~ occurs_in (toLowerCase term) (toLowerCase (r_reasoning e))) ->
   searchReasoning toLowerCase term s = []) /\
  ((forall x, is_ascii x -> toLowerCase x = ascii_lower x) ->
   is_ascii term ->
   forall id e,
     is_ascii (r_context e) -> is_ascii (r_reasoning e) ->
     (In (id, e) (searchReasoning toLowerCase term s) <->
      In (id, e) (reasoningBank s) /\
      (ci_substring term (r_context e) \/ ci_substring term (r_reasoning e)))).
Proof.
  split; [|split; [|split; [|split]]].
  - exists (fun p => reasoning_matches toLowerCase term (snd p)).
    split; [reflexivity|]. intros p. apply reasoning_matches_iff.
  - intros id e. unfold searchReasoning. rewrite filter_In. simpl.
    now rewrite reasoning_matches_iff.
  - intros context reasoning metadata now suffix now'. cbv zeta. simpl. split.
    + intros Hm. unfold searchReasoning. apply filter_In. simpl. split.
      * apply (jmap_get_In _ string_eqb_spec).
        apply (jmap_get_set_same _ string_eqb_spec).
      * now apply reasoning_matches_iff.
    + unfold getReasoning, searchReasoning. intros Hnew. simpl.
      rewrite (jmap_set_absent String.eqb _ _ _ Hnew), filter_app. simpl.
      now destruct (reasoning_matches toLowerCase term _).
  - unfold searchReasoning.
    induction (reasoningBank s) as [|[id e] l IH]; simpl; intros Hnone;
      [reflexivity|].
    destruct (reasoning_matches toLowerCase term e) eqn:E.
    + apply reasoning_matches_iff in E.
      destruct (Hnone id e (or_introl eq_refl)) as [H1 H2]. tauto.
    + apply IH. intros id' e' Hin. apply (Hnone id' e'). now right.
  - intros Hascii Ht id e Hc Hr. unfold searchReasoning.
    rewrite filter_In. simpl. unfold reasoning_matches.
    rewrite orb_true_iff, (Hascii _ Ht), (Hascii _ Hc), (Hascii _ Hr).
    now rewrite !includes_ascii_lower_iff.
Qed.

End ReasoningClaims.

(** ** [deleteVector] and the index *)

Section DeleteAndIndex.
Variable F : Type.

(** [deleteVector] leaves the index as it is, whatever it returns. *)
Lemma deleteVector_keeps_index (s : AgentDB F) (id : nat) :
  index (snd (deleteVector id s)) = index s.
Proof.
  unfold deleteVector.
  now destruct (JMap.has Nat.eqb id (memoryStore s)).
Qed.

End DeleteAndIndex.

(** C1: the run [addVector([1, 0])] (id 0), [deleteVector(0)] (true),
    [search([1, 0], 1)]: the metadata store no longer has id 0, and the
    search returns one result whose id is 0, with no vector, metadata or
    timestamp. *)
Theorem search_returns_deleted_id :
  deleteVector 0 one_vector = (true, one_deleted) /\
  JMap.get Nat.eqb 0 (memoryStore one_deleted) = None /\
  zsearch [1; 0]%Z 1 one_deleted =
    Ok [ {| sr_id := 0; sr_distance := 0%Z; sr_vector := None;
            sr_metadata := None; sr_timestamp := None |} ].
Proof. repeat split. Qed.

(** C2: on a store of dimension 4, [addVector([1, 2, 3])] throws the
    dimension error; the metadata store, the index and the reasoning bank
    are as before, and the counter went from 0 to 1. *)
Theorem addVector_mismatch_moves_counter :
  let s := db_of_dim 4 in
  let r := addVector [1; 2; 3]%Z [] 7 s in
  fst r = Throw (VectorDimension 3 4) /\
  memoryStore (snd r) = memoryStore s /\
  index (snd r) = index s /\
  reasoningBank (snd r) = reasoningBank s /\
  currentId s = 0 /\ currentId (snd r) = 1.
Proof. cbv zeta. rewrite addVector_mismatch by (simpl; lia). repeat split. Qed.

(** C3: ids 0 and 1 are added and id 0 is deleted.  Before the round trip
    [search([0, 1], 1)] returns id 1; after [export], [clear] and
    [import], which returns normally, the same search returns id 0: the
    record was added again under the next free id. *)
Theorem roundtrip_renumbers_ids :
  fst reimported = Ok tt /\
  zsearch [0; 1]%Z 1 first_deleted =
    Ok [ {| sr_id := 1; sr_distance := 0%Z; sr_vector := Some [0; 1]%Z;
            sr_metadata := Some []; sr_timestamp := Some 2 |} ] /\
  zsearch [0; 1]%Z 1 (snd reimported) =
    Ok [ {| sr_id := 0; sr_distance := 0%Z; sr_vector := Some [0; 1]%Z;
            sr_metadata := Some []; sr_timestamp := Some 9 |} ] /\
  currentId (snd reimported) = 2.
Proof. repeat split. Qed.

(** C5: after [addVector([1, 0])] and [deleteVector(0)] the store has no
    live vector, and [search([1, 0], 1)] returns one result, not
    [min(1, 0) = 0]. *)
Theorem search_counts_deleted_vectors :
  totalVectors (getStats one_deleted) = 0 /\
  match zsearch [1; 0]%Z 1 one_deleted with
  | Ok results => List.length results = 1
  | Throw _ => False
  end.
Proof. split; reflexivity. Qed.

(** C4 (as stated, refuted): on a store that holds a vector, [import] of
    the object with no field returns normally and leaves the store empty;
    [import] of a snapshot of dimension 3 into the store of dimension 2
    throws and leaves a store that is not the prior one. *)
Lemma import_malformed_does_not_keep_state :
  ~ (is_ok (fst (import (empty_snapshot Z) (fun _ => 0) one_vector)) = false /\
     snd (import (empty_snapshot Z) (fun _ => 0) one_vector) = one_vector) /\
  ~ (is_ok (fst (import snapshot_dim3 (fun _ => 0) one_vector)) = false /\
     snd (import snapshot_dim3 (fun _ => 0) one_vector) = one_vector).
Proof.
  split.
  - intros [H _]. vm_compute in H. discriminate.
  - intros [_ H]. apply (f_equal (@memoryStore Z)) in H.
    vm_compute in H. discriminate.
Qed.


(** The hypothesis and the conclusion of C6 on the example of the
    specification: [{ a: 1 }] updated with [{ b: 2 }] is [{ a: 1, b: 2 }]. *)
Lemma updateMetadata_shallow_merge_witness :
  JMap.wf [("b"%string, JNum 2)] /\
  fst (updateMetadata 0 [("b"%string, JNum 2)] with_a1) = true /\
  exists e',
    JMap.get Nat.eqb 0
      (memoryStore (snd (updateMetadata 0 [("b"%string, JNum 2)] with_a1)))
      = Some e' /\
    e_metadata e' = [("a"%string, JNum 1); ("b"%string, JNum 2)].
Proof.
  assert (Hwf : JMap.wf [("b"%string, JNum 2)]).
  { unfold JMap.wf. simpl. constructor; [intros []|constructor]. }
  split; [exact Hwf|].
  pose proof (@updateMetadata_shallow_merge Z with_a1 0 _ Hwf) as H.
  simpl in H. destruct H as [Ht [[e' [Hget [Hmeta _]]] _]].
  split; [exact Ht|]. exists e'. split; [exact Hget|exact Hmeta].
Defined.

(** C8 (as stated, refuted): the bank holds one record, whose context
    is the two letters capital alpha, capital sigma (U+0391 U+03A3).  The
    term capital sigma is a substring of that context, and
    [searchReasoning] of it is empty: [toLowerCase] turns the context
    into small alpha, final sigma (U+03B1 U+03C2) and the term into the
    small sigma (U+03C3). *)
Lemma searchReasoning_misses_final_sigma :
  occurs_in [931]%N [913; 931]%N /\
  ci_substring [931]%N [913; 931]%N /\
  (exists id e,
     reasoningBank with_alpha_sigma = [(id, e)] /\
     r_context e = [913; 931]%N) /\
  toLowerCase_sample [913; 931]%N = [945; 962]%N /\
  toLowerCase_sample [931]%N = [963]%N /\
  searchReasoning toLowerCase_sample [931]%N with_alpha_sigma = [].
Proof.
  split; [now exists [913%N], []|].
  split; [exists [913%N], [931%N], []; split; [reflexivity|];
          constructor; [now left|constructor]|].
  split; [eexists; eexists; split; reflexivity|].
  split; [reflexivity|]. split; reflexivity.
Qed.

(** A letter outside ASCII is folded too: with the context capital
    E acute (U+00C9), [searchReasoning] of the small e acute (U+00E9)
    returns the record. *)
Lemma searchReasoning_folds_e_acute :
  searchReasoning toLowerCase_sample [233]%N with_e_acute =
    reasoningBank with_e_acute /\
  List.length (reasoningBank with_e_acute) = 1.
Proof. split; reflexivity. Qed.

(** On ASCII text [toLowerCase_sample] is the folding of A-Z. *)
Lemma toLowerCase_sample_ascii (x : JsString) :
  is_ascii x -> toLowerCase_sample x = ascii_lower x.
Proof.
  unfold toLowerCase_sample. generalize false.
  induction x as [|c x IH]; intros b Hx; [reflexivity|].
  inversion Hx as [|? ? Hc Hx']; subst. simpl.
  rewrite (IH _ Hx'). f_equal.
  unfold lower_letter.
  destruct (N.eqb_spec c 931) as [->|_]; [lia|].
  destruct (N.eqb_spec c 201) as [->|_]; [lia|].
  destruct (N.eqb_spec c 913) as [->|_]; [lia|reflexivity].
Qed.

(** [export] writes the low counter again: the snapshot of
    [after_low_counter] has three entries and [currentId] 2. *)
Lemma export_keeps_low_counter :
  snap_currentId (export after_low_counter) = Some 2 /\
  option_map (@List.length _) (snap_memoryStore (export after_low_counter)) =
    Some 3.
Proof. split; reflexivity. Qed.

(** ** [search] on a store whose index and metadata store agree *)

Section SearchFacts.
Variables F D : Type.
Variable dist : list F -> list F -> D.
Variable dleb : D -> D -> bool.
Hypothesis dleb_total : forall a b, dleb a b = true \/ dleb b a = true.
Implicit Types s : AgentDB F.

Lemma rank_insert_length (p : nat * D) l :
  List.length (rank_insert dleb p l) = S (List.length l).
Proof.
  induction l as [|x l IH]; simpl; [reflexivity|].
  destruct (dleb (snd p) (snd x)); simpl; [reflexivity|now rewrite IH].
Qed.

Lemma rank_length (l : list (nat * D)) :
  List.length (rank dleb l) = List.length l.
Proof.
  induction l as [|x l IH]; simpl; [reflexivity|].
  now rewrite rank_insert_length, IH.
Qed.

Lemma rank_insert_In (p x : nat * D) l :
  In x (rank_insert dleb p l) <-> x = p \/ In x l.
Proof.
  induction l as [|y l IH]; simpl.
  - intuition congruence.
  - destruct (dleb (snd p) (snd y)); simpl; [intuition congruence|].
    rewrite IH. intuition congruence.
Qed.

Lemma rank_In (x : nat * D) l : In x (rank dleb l) <-> In x l.
Proof.
  induction l as [|y l IH]; simpl; [tauto|].
  rewrite rank_insert_In, IH. intuition congruence.
Qed.

Lemma rank_insert_ascending (p : nat * D) l :
  ascending dleb (map snd l) ->
  ascending dleb (map snd (rank_insert dleb p l)).
Proof.
  unfold ascending. induction l as [|x l IH]; simpl; intros H.
  - repeat constructor.
  - destruct (dleb (snd p) (snd x)) eqn:E; simpl.
    + constructor; [exact H|]. constructor. exact E.
    + inversion H as [|? ? Hs Hhd]; subst.
      constructor; [now apply IH|].
      destruct l as [|y l]; simpl.
      * constructor. destruct (dleb_total (snd p) (snd x)); congruence.
      * destruct (dleb (snd p) (snd y)); simpl.
        -- constructor. destruct (dleb_total (snd p) (snd x)); congruence.
        -- inversion Hhd; subst. now constructor.
Qed.

Lemma rank_ascending (l : list (nat * D)) :
  ascending dleb (map snd (rank dleb l)).
Proof.
  induction l as [|x l IH]; simpl; [constructor|].
  now apply rank_insert_ascending.
Qed.

Lemma firstn_ascending (k : nat) (l : list D) :
  ascending dleb l -> ascending dleb (firstn k l).
Proof.
  unfold ascending. revert l. induction k as [|k IH]; intros [|x l] H; simpl;
    try constructor.
  - apply IH. now inversion H.
  - inversion H as [|? ? _ Hhd]; subst.
    destruct k, l; simpl; constructor. now inversion Hhd.
Qed.

Lemma firstn_incl (A : Type) (k : nat) (l : list A) (x : A) :
  In x (firstn k l) -> In x l.
Proof.
  intros H. rewrite <- (firstn_skipn k l). apply in_or_app. now left.
Qed.

Lemma hydrate_distance s (l : list (nat * D)) :
  map (@sr_distance F D) (map (hydrate s) l) = map snd l.
Proof.
  induction l as [|p l IH]; simpl; [reflexivity|]. rewrite IH. f_equal.
  unfold hydrate. now destruct (JMap.get Nat.eqb (fst p) (memoryStore s)).
Qed.

(** X1: on a store whose index and metadata store agree, a query of the
    configured dimension gets [min(k, number of records)] results in
    ascending distance order, each with its metadata; a query of another
    length gets the dimension error. *)
Theorem search_on_synced_store s (query : VectorArg F) (k : nat) :
  in_sync s ->
  (List.length (float32Array query) = dimension s ->
   exists results,
     search dist dleb query k s = Ok results /\
     List.length results = Nat.min k (List.length (memoryStore s)) /\
     ascending dleb (map (@sr_distance F D) results) /\
     Forall (fun r => sr_metadata r <> None) results) /\
  (List.length (float32Array query) <> dimension s ->
   search dist dleb query k s =
     Throw (QueryDimension (List.length (float32Array query)) (dimension s))).
Proof.
  rewrite search_float32Array. generalize (float32Array query).
  clear query. intros query.
  intros [Hdim Hpts]. split; intros Hq; unfold search; simpl.
  - rewrite Hq, Nat.eqb_refl. simpl. unfold searchKnn.
    rewrite Hdim, Hq, Nat.eqb_refl. eexists. split; [reflexivity|].
    split; [|split].
    + now rewrite length_map, length_firstn, rank_length, length_map,
        Hpts, length_map.
    + rewrite hydrate_distance, <- firstn_map.
      apply firstn_ascending, rank_ascending.
    + apply Forall_forall. intros r Hr.
      apply in_map_iff in Hr. destruct Hr as [p [<- Hp]].
      apply firstn_incl, rank_In, in_map_iff in Hp.
      destruct Hp as [pt [<- Hpt]]. rewrite Hpts in Hpt.
      apply in_map_iff in Hpt. destruct Hpt as [[id e] [<- Hin]]. simpl.
      unfold hydrate. simpl.
      destruct (JMap.get Nat.eqb id (memoryStore s)) as [e0|] eqn:E;
        simpl; [discriminate|].
      apply (jmap_get_None_keys _ nat_eqb_spec) in E. exfalso. apply E.
      unfold JMap.keys. now apply (in_map fst) in Hin.
  - destruct (Nat.eqb_spec (List.length query) (dimension s));
      [contradiction|reflexivity].
Qed.

End SearchFacts.

(** ** The round trip [export], [clear], [import] on a dense store *)

Section RoundTrip.
Variable F : Type.
Implicit Types s t : AgentDB F.

Lemma keys_seq_fresh (V : Type) (l : list (nat * V)) (n : nat) :
  JMap.keys l = seq 0 n -> JMap.get Nat.eqb n l = None.
Proof.
  intros H. apply (jmap_get_None_keys _ nat_eqb_spec). rewrite H.
  intros Hin. apply in_seq in Hin. lia.
Qed.

Lemma keys_seq_set (V : Type) (l : list (nat * V)) (n : nat) (v : V) :
  JMap.keys l = seq 0 n ->
  JMap.set Nat.eqb n v l = l ++ [(n, v)] /\
  JMap.keys (JMap.set Nat.eqb n v l) = seq 0 (S n).
Proof.
  intros H. rewrite (jmap_set_absent Nat.eqb _ _ _ (@keys_seq_fresh _ _ _ H)).
  split; [reflexivity|]. unfold JMap.keys in *.
  now rewrite map_app, H, seq_S.
Qed.

(** [addVector] on a vector of the right length, when the index has the
    facade's dimension. *)
Lemma addVector_ok t (v : list F) md now :
  List.length v = dimension t ->
  h_dim (index t) = dimension t ->
  exists t',
    addVector v md now t = (Ok (currentId t), t') /\
    same_config t t' /\
    reasoningBank t' = reasoningBank t /\
    currentId t' = S (currentId t) /\
    memoryStore t' =
      JMap.set Nat.eqb (currentId t)
        {| e_vector := v; e_metadata := md; e_timestamp := now;
           e_id := currentId t |} (memoryStore t) /\
    h_points (index t') = JMap.set Nat.eqb (currentId t) v (h_points (index t)).
Proof.
  intros Hv Hd.
  assert (E1 : (List.length v =? dimension t) = true)
    by (now apply Nat.eqb_eq).
  assert (E2 : (List.length v =? h_dim (index t)) = true)
    by (apply Nat.eqb_eq; congruence).
  unfold addVector, addPoint. simpl. rewrite E1, E2. simpl.
  eexists. split; [reflexivity|].
  unfold same_config. simpl. repeat split; reflexivity.
Qed.

Lemma import_entries_replay clock (rest : list (nat * VEntry F)) :
  forall j t,
    h_dim (index t) = dimension t ->
    JMap.keys (memoryStore t) = seq 0 (currentId t) ->
    JMap.keys (h_points (index t)) = seq 0 (currentId t) ->
    Forall (fun p => List.length (e_vector (snd p)) = dimension t) rest ->
    exists t',
      import_entries clock j (map (@exported F) rest) t = (Ok tt, t') /\
      same_config t t' /\
      reasoningBank t' = reasoningBank t /\
      currentId t' = currentId t + List.length rest /\
      memoryStore t' = memoryStore t ++ readded clock j (currentId t) rest /\
      h_points (index t') =
        h_points (index t) ++
        map (fun p => (fst p, e_vector (snd p)))
            (readded clock j (currentId t) rest).
Proof.
  induction rest as [|p rest IH]; intros j t Hd Hms Hpts Hlen; simpl.
  - exists t. rewrite !app_nil_r, Nat.add_0_r.
    repeat split; reflexivity.
  - inversion Hlen as [|? ? Hp Hrest]; subst.
    destruct (addVector_ok t (e_vector (snd p)) (e_metadata (snd p)) (clock j) Hp Hd)
      as [t1 [Hadd [Hcfg [Hrb [Hcur [Hms1 Hpts1]]]]]].
    rewrite Hadd.
    destruct (@keys_seq_set _ _ _ {| e_vector := e_vector (snd p);
                                e_metadata := e_metadata (snd p);
                                e_timestamp := clock j;
                                e_id := currentId t |} Hms) as [Hset Hkeys].
    destruct (@keys_seq_set _ _ _ (e_vector (snd p)) Hpts) as [Hset' Hkeys'].
    rewrite Hset in Hms1. rewrite Hset' in Hpts1.
    assert (Hcfg' := Hcfg). unfold same_config in Hcfg'.
    destruct Hcfg' as [Hdim [_ [_ [_ [_ [Hhd _]]]]]].
    destruct (IH (S j) t1) as [t' [Hrun [Hcfg2 [Hrb2 [Hcur2 [Hms2 Hpts2]]]]]].
    + congruence.
    + rewrite Hms1, Hcur. rewrite <- Hset. exact Hkeys.
    + rewrite Hpts1, Hcur. rewrite <- Hset'. exact Hkeys'.
    + eapply Forall_impl; [|exact Hrest]. simpl. intros a Ha. congruence.
    + exists t'. split; [exact Hrun|].
      split; [eapply same_config_trans; eassumption|].
      split; [congruence|]. split; [lia|].
      rewrite Hms2, Hpts2, Hms1, Hpts1, Hcur, <- !app_assoc. simpl.
      split; reflexivity.
Qed.

Lemma readded_same_records clock (l : list (nat * VEntry F)) :
  forall j base,
    JMap.keys l = seq base (List.length l) ->
    Forall (fun p => e_id (snd p) = fst p) l ->
    Forall2 (fun p p' => fst p' = fst p /\ same_record (snd p) (snd p'))
            l (readded clock j base l).
Proof.
  induction l as [|p l IH]; intros j base Hk Hid; simpl; [constructor|].
  simpl in Hk. injection Hk as Hp Hk.
  inversion Hid as [|? ? Hpid Hid']; subst.
  constructor; [|now apply IH].
  simpl. unfold same_record. simpl. repeat split; congruence.
Qed.

Lemma same_records_points (l l' : list (nat * VEntry F)) :
  Forall2 (fun p p' => fst p' = fst p /\ same_record (snd p) (snd p')) l l' ->
  map (fun p => (fst p, e_vector (snd p))) l' =
  map (fun p => (fst p, e_vector (snd p))) l.
Proof.
  induction 1 as [|p p' l l' [Hk [Hv _]] _ IH]; simpl; [reflexivity|].
  now rewrite Hk, Hv, IH.
Qed.

Lemma same_records_get (l l' : list (nat * VEntry F)) (id : nat) :
  Forall2 (fun p p' => fst p' = fst p /\ same_record (snd p) (snd p')) l l' ->
  match JMap.get Nat.eqb id l, JMap.get Nat.eqb id l' with
  | Some e, Some e' => same_record e e'
  | None, None => True
  | _, _ => False
  end.
Proof.
  induction 1 as [|[k e] [k' e'] l l' [Hk Hr] _ IH]; simpl; [exact I|].
  simpl in Hk, Hr. subst k'. destruct (id =? k); [exact Hr|exact IH].
Qed.

End RoundTrip.

Section RoundTripSearch.
Variables F D : Type.
Variable dist : list F -> list F -> D.
Variable dleb : D -> D -> bool.
Implicit Types s : AgentDB F.

Lemma hydrate_same_records s s' (p : nat * D) :
  Forall2 (fun p p' => fst p' = fst p /\ same_record (snd p) (snd p'))
          (memoryStore s) (memoryStore s') ->
  untimed (hydrate s' p) = untimed (hydrate s p).
Proof.
  intros H. pose proof (same_records_get (fst p) H) as Hg.
  unfold hydrate, untimed.
  destruct (JMap.get Nat.eqb (fst p) (memoryStore s)) as [e|],
           (JMap.get Nat.eqb (fst p) (memoryStore s')) as [e'|];
    simpl; try contradiction; [|reflexivity].
  destruct Hg as [Hv [Hm Hi]]. now rewrite Hv, Hm, Hi.
Qed.

(** X2: on a dense store the round trip [export], [clear], [import] returns
    normally and every search returns the same ids in the same order with
    the same distances, vectors and metadata as before (the timestamps
    are those of the import). *)
Theorem roundtrip_on_dense_store s (clock : nat -> nat) :
  dense s ->
  exists s',
    import (export s) clock (clear s) = (Ok tt, s') /\
    forall query k,
      same_results (search dist dleb query k s') (search dist dleb query k s).
Proof.
  intros [[Hdim Hpts] [Hkeys Hall]].
  destruct (@import_entries_replay F clock (memoryStore s) 0 (clear s))
    as [t' [Hrun [Hcfg [_ [_ [Hms' Hpts']]]]]].
  - reflexivity.
  - reflexivity.
  - reflexivity.
  - eapply Forall_impl; [|exact Hall]. simpl. tauto.
  - simpl in Hms', Hpts'.
    assert (Hsame : Forall2
              (fun p p' => fst p' = fst p /\ same_record (snd p) (snd p'))
              (memoryStore s) (memoryStore t')).
    { rewrite Hms'. apply readded_same_records; [exact Hkeys|].
      eapply Forall_impl; [|exact Hall]. simpl. tauto. }
    unfold same_config in Hcfg. simpl in Hcfg.
    destruct Hcfg as [Hd' [_ [_ [_ [_ [Hhd' _]]]]]].
    eexists. split.
    + unfold import, export. simpl.
      change (set_config (dimension s) (maxElements s) (clear (clear s)))
        with (clear s).
      change (map _ (memoryStore s)) with (map (@exported F) (memoryStore s)).
      rewrite Hrun. reflexivity.
    + intros query k. unfold search. simpl.
      generalize (float32Array query). clear query. intros query.
      rewrite Hd'.
      destruct (List.length query =? dimension s) eqn:Eq; simpl;
        [|reflexivity].
      unfold searchKnn.
      rewrite Hhd', Hdim, Hpts', <- Hms', Hpts, (same_records_points Hsame).
      destruct (List.length query =? dimension s); simpl; [|reflexivity].
      rewrite !map_map. apply map_ext. intros p.
      now apply hydrate_same_records.
Qed.

End RoundTripSearch.

(** ** Which stores are dense *)

Section Pristine.
Variable F : Type.
Implicit Types s : AgentDB F.

Lemma set_present_map (V B : Type) (g : nat * V -> B) (k : nat) (v v' : V)
  (l : list (nat * V)) :
  JMap.get Nat.eqb k l = Some v -> g (k, v') = g (k, v) ->
  map g (JMap.set Nat.eqb k v' l) = map g l.
Proof.
  intros Hget Hg. induction l as [|[k0 v0] l IH]; simpl in *; [discriminate|].
  destruct (Nat.eqb_spec k k0) as [->|Hne]; simpl.
  - injection Hget as ->. now rewrite Hg.
  - now rewrite IH.
Qed.

Lemma set_Forall (V : Type) (P : nat * V -> Prop) (k : nat) (v : V)
  (l : list (nat * V)) :
  Forall P l -> P (k, v) -> Forall P (JMap.set Nat.eqb k v l).
Proof.
  intros Hl Hv. induction Hl as [|[k0 v0] l Hp Hl IH]; simpl.
  - now constructor.
  - destruct (k =? k0); constructor; assumption.
Qed.

Lemma pristine_new (options : Options) : pristine (new_AgentDB F options).
Proof. repeat split; simpl; constructor. Qed.

Lemma pristine_clear s : pristine (clear s).
Proof. repeat split; simpl; constructor. Qed.

Lemma pristine_addVector s (v : list F) md now id s' :
  pristine s -> addVector v md now s = (Ok id, s') -> pristine s'.
Proof.
  intros [[[Hdim Hpts] [Hkeys Hall]] Hcur] Hadd.
  destruct (Nat.eq_dec (List.length v) (dimension s)) as [Hv|Hv];
    [|rewrite (addVector_mismatch s v md now Hv) in Hadd; discriminate].
  destruct (addVector_ok s v md now Hv Hdim)
    as [t [Hadd' [Hcfg [_ [Hcur' [Hms' Hpts']]]]]].
  rewrite Hadd' in Hadd. injection Hadd as _ <-.
  unfold same_config in Hcfg. destruct Hcfg as [Hd' [_ [_ [_ [_ [Hhd' _]]]]]].
  rewrite <- Hcur in Hkeys.
  assert (Hpk : JMap.keys (h_points (index s)) = seq 0 (currentId s)).
  { rewrite Hpts. unfold JMap.keys in *. rewrite map_map. exact Hkeys. }
  destruct (@keys_seq_set _ _ _ {| e_vector := v; e_metadata := md;
                                    e_timestamp := now; e_id := currentId s |}
              Hkeys) as [Hset Hk'].
  destruct (@keys_seq_set _ _ _ v Hpk) as [Hset' _].
  rewrite Hset in Hms'. rewrite Hset' in Hpts'.
  assert (Hlen : List.length (memoryStore t) = S (currentId s)).
  { rewrite Hms', length_app, Hcur. simpl. lia. }
  split; [split; [split|split]|].
  - congruence.
  - rewrite Hpts', Hms', Hpts, map_app. reflexivity.
  - rewrite Hlen, Hms', <- Hset. exact Hk'.
  - rewrite Hms'. apply Forall_app. split.
    + eapply Forall_impl; [|exact Hall]. simpl. intros a [Ha Hb].
      split; [exact Ha|congruence].
    + constructor; [|constructor]. simpl. split; [reflexivity|congruence].
  - congruence.
Qed.

Lemma pristine_updateMetadata s (id : nat) (U : Obj) :
  pristine s -> pristine (snd (updateMetadata id U s)).
Proof.
  intros H. unfold updateMetadata.
  destruct (JMap.get Nat.eqb id (memoryStore s)) as [e|] eqn:E; [|exact H].
  destruct H as [[[Hdim Hpts] [Hkeys Hall]] Hcur]. simpl.
  assert (Hlen : List.length
                   (JMap.set Nat.eqb id
                      {| e_vector := e_vector e;
                         e_metadata := spread (e_metadata e) U;
                         e_timestamp := e_timestamp e; e_id := e_id e |}
                      (memoryStore s)) = List.length (memoryStore s)).
  { rewrite <- (length_map fst), <- (length_map fst (memoryStore s)).
    f_equal. now apply set_present_map with (v := e). }
  assert (Hin : In (id, e) (memoryStore s))
    by (now apply (jmap_get_In _ nat_eqb_spec)).
  rewrite Forall_forall in Hall. destruct (Hall _ Hin) as [He Hl].
  split; [split; [split|split]|]; simpl.
  - exact Hdim.
  - rewrite Hpts. symmetry. now apply set_present_map with (v := e).
  - rewrite Hlen. unfold JMap.keys. rewrite <- Hkeys.
    now apply set_present_map with (v := e).
  - apply set_Forall; [now apply Forall_forall|]. simpl. split; assumption.
  - rewrite Hlen. exact Hcur.
Qed.

Lemma pristine_addReasoning s context reasoning metadata now suffix now' :
  pristine s ->
  pristine (snd (addReasoning context reasoning metadata now suffix now' s)).
Proof. intros H. exact H. Qed.

End Pristine.

(** ** The two theorems on search at the concrete instance *)

Lemma zleb_total (a b : Z) : Z.leb a b = true \/ Z.leb b a = true.
Proof. rewrite !Z.leb_le. lia. Qed.

Lemma two_vectors_dense : dense two_vectors.
Proof.
  split; [split; reflexivity|]. split; [reflexivity|].
  repeat constructor.
Qed.

(** [search_on_synced_store] on the store with ids 0 and 1. *)
Lemma search_on_synced_store_witness :
  (forall a b, Z.leb a b = true \/ Z.leb b a = true) /\
  in_sync two_vectors /\
  exists results,
    zsearch [0; 1]%Z 5 two_vectors = Ok results /\
    List.length results = 2 /\
    ascending Z.leb (map (@sr_distance Z Z) results).
Proof.
  split; [exact zleb_total|]. split; [exact (proj1 two_vectors_dense)|].
  destruct (proj1 (@search_on_synced_store Z Z l2sq Z.leb zleb_total
                     two_vectors [0; 1]%Z 5 (proj1 two_vectors_dense))
                  eq_refl)
    as [results [Hs [Hl [Ha _]]]].
  exists results. split; [exact Hs|]. split; [exact Hl|exact Ha].
Defined.

(** [roundtrip_on_dense_store] on the store with ids 0 and 1. *)
Lemma roundtrip_on_dense_store_witness :
  dense two_vectors /\
  exists s',
    import (export two_vectors) (fun _ => 9) (clear two_vectors) = (Ok tt, s') /\
    same_results (zsearch [0; 1]%Z 1 s') (zsearch [0; 1]%Z 1 two_vectors).
Proof.
  split; [exact two_vectors_dense|].
  destruct (@roundtrip_on_dense_store Z Z l2sq Z.leb two_vectors (fun _ => 9)
              two_vectors_dense) as [s' [Hi Hs]].
  exists s'. split; [exact Hi|apply Hs].
Defined.

(** ** An invariant of all the methods *)

Section StoreInvariant.
Variable F : Type.
Implicit Types s : AgentDB F.

Lemma delete_Forall (V : Type) (P : nat * V -> Prop) (k : nat)
  (l : list (nat * V)) :
  Forall P l -> Forall P (JMap.delete Nat.eqb k l).
Proof.
  intros H. apply Forall_forall. intros p Hp.
  apply filter_In in Hp. rewrite Forall_forall in H. now apply H.
Qed.

Lemma addVector_invariant s (v : VectorArg F) md now :
  store_invariant s -> store_invariant (snd (addVector v md now s)).
Proof.
  rewrite addVector_float32Array. generalize (float32Array v).
  clear v. intros v.
  intros [Hms [Hrb Hall]]. unfold addVector, addPoint. simpl.
  destruct (Nat.eqb_spec (List.length v) (dimension s)) as [Hv|Hv]; simpl;
    [|now repeat split].
  destruct (List.length v =? h_dim (index s)); simpl; [|now repeat split].
  split; [|split]; simpl.
  - now apply (jmap_wf_set _ nat_eqb_spec).
  - exact Hrb.
  - apply set_Forall; [exact Hall|]. simpl. now split.
Qed.

Lemma import_entries_invariant clock (entries : list (XEntry F)) :
  forall i s,
    store_invariant s ->
    store_invariant (snd (import_entries clock i entries s)).
Proof.
  induction entries as [|x rest IH]; intros i s H; simpl; [exact H|].
  pose proof (addVector_invariant (x_vector x) (x_metadata x) (clock i) H) as H'.
  destruct (addVector (x_vector x) (x_metadata x) (clock i) s) as [[id|e] s'];
    simpl in *; [now apply IH|exact H'].
Qed.

Lemma of_list_wf (pairs : list (string * REntry)) :
  JMap.wf (JMap.of_list String.eqb pairs).
Proof.
  unfold JMap.of_list. apply (jmap_wf_set_all _ string_eqb_spec). constructor.
Qed.

Lemma import_invariant (data : Snapshot F) clock s :
  store_invariant (snd (import data clock s)).
Proof.
  unfold import.
  set (s2 := match snap_config data with
             | Some c => set_config (c_dimension c) (c_maxElements c) (clear s)
             | None => clear s
             end).
  assert (H2 : store_invariant s2).
  { subst s2. destruct (snap_config data); repeat split; simpl; constructor. }
  set (restored := match snap_memoryStore data with
                   | Some entries => import_entries clock 0 entries s2
                   | None => (Ok tt, s2)
                   end).
  assert (H3 : store_invariant (snd restored)).
  { subst restored. destruct (snap_memoryStore data);
      [now apply import_entries_invariant|exact H2]. }
  destruct restored as [[u|e] s3]; simpl in *; [|exact H3].
  destruct H3 as [Hms [Hrb Hall]].
  destruct (snap_reasoningBank data); (split; [|split]); simpl;
    try assumption.
  apply of_list_wf.
Qed.

Lemma call_invariant (c : Call F) s :
  store_invariant s -> store_invariant (snd (call c s)).
Proof.
  intros H. destruct c; simpl; try exact H.
  - pose proof (addVector_invariant vector metadata now H) as H'.
    now destruct (addVector vector metadata now s) as [[id|e] s'].
  - destruct H as [Hms [Hrb Hall]]. split; [|split]; simpl; try assumption.
    now apply (jmap_wf_set _ string_eqb_spec).
  - destruct H as [Hms [Hrb Hall]]. unfold deleteVector.
    destruct (JMap.has Nat.eqb id (memoryStore s)); simpl; [|now repeat split].
    split; [|split]; simpl; try assumption.
    + now apply jmap_wf_delete.
    + now apply delete_Forall.
  - destruct H as [Hms [Hrb Hall]]. unfold updateMetadata.
    destruct (JMap.get Nat.eqb id (memoryStore s)) as [e|] eqn:E; simpl;
      [|now repeat split].
    split; [|split]; simpl; try assumption.
    + now apply (jmap_wf_set _ nat_eqb_spec).
    + apply set_Forall; [exact Hall|]. simpl.
      apply (jmap_get_In _ nat_eqb_spec) in E.
      rewrite Forall_forall in Hall. exact (Hall _ E).
Qed.

Lemma exec_op_invariant (o : Op F) s :
  store_invariant s -> store_invariant (exec_op o s).
Proof.
  intros H. destruct o; simpl.
  - now apply call_invariant.
  - repeat split; simpl; constructor.
  - apply import_invariant.
Qed.

(** X3: in every state reached from the constructor by any sequence of
    methods, returning or throwing, the ids of the metadata store are
    distinct, the ids of the reasoning bank are distinct, and every record
    carries the id it is stored under and a vector of the configured
    dimension. *)
Theorem store_invariant_reachable (options : Options) (ops : list (Op F)) :
  store_invariant (exec ops (new_AgentDB F options)).
Proof.
  assert (H0 : store_invariant (new_AgentDB F options))
    by (repeat split; simpl; constructor).
  revert H0. generalize (new_AgentDB F options).
  induction ops as [|o ops IH]; intros s H; simpl; [exact H|].
  apply IH. now apply exec_op_invariant.
Qed.

End StoreInvariant.

(** ** [addVector], [getStats], [deleteVector] and [export] *)

Section FacadeMore.
Variable F : Type.
Implicit Types s : AgentDB F.

Lemma length_set (V : Type) (k : nat) (v : V) (l : list (nat * V)) :
  List.length (JMap.set Nat.eqb k v l) =
    if JMap.has Nat.eqb k l then List.length l else S (List.length l).
Proof.
  rewrite <- (length_map fst), <- (length_map fst l).
  change (map fst (JMap.set Nat.eqb k v l))
    with (JMap.keys (JMap.set Nat.eqb k v l)).
  rewrite (jmap_keys_set _ nat_eqb_spec).
  destruct (JMap.has Nat.eqb k l); [reflexivity|].
  unfold JMap.keys. rewrite length_app. simpl. lia.
Qed.

Lemma length_delete (V : Type) (k : nat) (l : list (nat * V)) :
  JMap.wf l ->
  List.length (JMap.delete Nat.eqb k l) +
    (if JMap.has Nat.eqb k l then 1 else 0) = List.length l.
Proof.
  unfold JMap.wf, JMap.keys, JMap.has.
  induction l as [|[k0 v0] l IH]; simpl; intros Hwf; [reflexivity|].
  inversion Hwf as [|? ? Hnotin Hwf']; subst.
  destruct (Nat.eqb_spec k k0) as [->|Hne]; simpl.
  - apply (jmap_get_None_keys _ nat_eqb_spec) in Hnotin.
    fold (JMap.delete Nat.eqb k0 l).
    rewrite (jmap_delete_absent Nat.eqb _ _ Hnotin). lia.
  - specialize (IH Hwf'). fold (JMap.delete Nat.eqb k l).
    destruct (JMap.get Nat.eqb k l); lia.
Qed.

(** X4: when [addVector] returns an id, that id is the counter before the
    call and the counter is one more afterwards; the argument, converted
    to a [Float32Array], had the configured dimension; the metadata store
    has under that id the record with the converted vector (a
    [Float32Array] as it was given, a plain array with every element
    rounded by [new Float32Array]), the metadata and the time given;
    every other id reads as before; the reasoning bank and the
    configuration are untouched. *)
Theorem addVector_stores_record s (vector : VectorArg F) md now id s' :
  addVector vector md now s = (Ok id, s') ->
  id = currentId s /\ currentId s' = S id /\
  List.length (float32Array vector) = dimension s /\
  JMap.get Nat.eqb id (memoryStore s') =
    Some {| e_vector := float32Array vector; e_metadata := md;
            e_timestamp := now; e_id := id |} /\
  (forall a : list F, vector = Float32Array a -> float32Array vector = a) /\
  (forall (Num : Type) (fround : Num -> F) (a : list Num),
     vector = PlainArray fround a -> float32Array vector = map fround a) /\
  (forall id', id' <> id ->
     JMap.get Nat.eqb id' (memoryStore s') = JMap.get Nat.eqb id' (memoryStore s)) /\
  reasoningBank s' = reasoningBank s /\
  same_config s s'.
Proof.
  unfold addVector, addPoint. simpl.
  destruct (Nat.eqb_spec (List.length (float32Array vector)) (dimension s))
    as [Hv|Hv]; simpl; [|discriminate].
  destruct (List.length (float32Array vector) =? h_dim (index s)); simpl;
    [|discriminate].
  intros [= <- <-]. simpl. split; [reflexivity|]. split; [reflexivity|].
  split; [exact Hv|]. split; [apply (jmap_get_set_same _ nat_eqb_spec)|].
  split; [now intros a ->|]. split; [now intros Num fround a ->|].
  split; [intros id' Hne; now apply (jmap_get_set_other _ nat_eqb_spec)|].
  split; [reflexivity|]. unfold same_config. simpl. repeat split; reflexivity.
Qed.

(** X5: on a store with distinct ids all below the counter,
    [getStats().totalVectors] goes up by one with every [addVector] that
    returns, down by one with a [deleteVector] that returns true, and is
    unchanged by a [deleteVector] that returns false and by
    [updateMetadata]; after [clear()] both counts are zero and the
    dimension and capacity are as before. *)
Theorem getStats_accounting s :
  JMap.wf (memoryStore s) ->
  ids_below_counter s ->
  (forall v md now id s',
     addVector v md now s = (Ok id, s') ->
     totalVectors (getStats s') = S (totalVectors (getStats s))) /\
  (forall id,
     totalVectors (getStats (snd (deleteVector id s))) +
       (if fst (deleteVector id s) then 1 else 0) =
     totalVectors (getStats s)) /\
  (forall id U, getStats (snd (updateMetadata id U s)) = getStats s) /\
  getStats (clear s) =
    {| totalVectors := 0; totalReasoning := 0;
       st_dimension := dimension s; st_maxElements := maxElements s |}.
Proof.
  intros Hwf Hinv. split; [|split; [|split]].
  - intros v md now id s'. unfold addVector, addPoint. simpl.
    generalize (float32Array v). clear v. intros v.
    destruct (List.length v =? dimension s); simpl; [|discriminate].
    destruct (List.length v =? h_dim (index s)); simpl; [|discriminate].
    intros [= <- <-]. simpl. rewrite length_set.
    destruct (JMap.has Nat.eqb (currentId s) (memoryStore s)) eqn:E;
      [|reflexivity].
    apply Hinv in E. lia.
  - intros id. unfold deleteVector.
    pose proof (length_delete id Hwf) as Hl.
    destruct (JMap.has Nat.eqb id (memoryStore s)); simpl in *; lia.
  - intros id U. unfold updateMetadata, getStats.
    destruct (JMap.get Nat.eqb id (memoryStore s)) as [e|] eqn:E; simpl;
      [|reflexivity].
    rewrite length_set. unfold JMap.has. now rewrite E.
  - reflexivity.
Qed.

(** X8: whatever [deleteVector(id)] returns, afterwards the metadata store
    has no record under [id], [updateMetadata(id, U)] returns false and
    changes nothing, and [export()] writes the entries it wrote before,
    in the same order, without those of that id. *)
Theorem deleteVector_then_readers s (id : nat) (U : Obj) :
  let s' := snd (deleteVector id s) in
  JMap.get Nat.eqb id (memoryStore s') = None /\
  updateMetadata id U s' = (false, s') /\
  snap_memoryStore (export s') =
    option_map (filter (fun x => negb (id =? x_id x)))
               (snap_memoryStore (export s)).
Proof.
  cbv zeta.
  assert (Hget : JMap.get Nat.eqb id (memoryStore (snd (deleteVector id s))) = None).
  { unfold deleteVector.
    destruct (JMap.has Nat.eqb id (memoryStore s)) eqn:E; simpl.
    - apply jmap_get_delete_same.
    - unfold JMap.has in E. now destruct (JMap.get Nat.eqb id (memoryStore s)). }
  split; [exact Hget|]. split.
  - unfold updateMetadata. now rewrite Hget.
  - assert (Hms : memoryStore (snd (deleteVector id s)) =
                  JMap.delete Nat.eqb id (memoryStore s)).
    { unfold deleteVector.
      destruct (JMap.has Nat.eqb id (memoryStore s)) eqn:E; simpl;
        [reflexivity|].
      symmetry. apply jmap_delete_absent. unfold JMap.has in E.
      now destruct (JMap.get Nat.eqb id (memoryStore s)). }
    unfold export. simpl. rewrite Hms. clear Hms Hget. f_equal.
    unfold JMap.delete.
    induction (memoryStore s) as [|p l IH]; simpl; [reflexivity|].
    destruct (id =? fst p); simpl; now rewrite IH.
Qed.

End FacadeMore.

(** ** The reasoning bank: identifiers and lookups *)

Section ReasoningMore.
Variable F : Type.
Implicit Types s : AgentDB F.
Open Scope string_scope.

Lemma digits_no_underscore (d : Decimal.uint) (c : ascii) :
  In c (list_ascii_of_string (NilEmpty.string_of_uint d)) -> c <> "_"%char.
Proof.
  induction d as [|d IH|d IH|d IH|d IH|d IH|d IH|d IH|d IH|d IH|d IH];
    simpl; try tauto;
    intros [<-|H]; try (now apply IH); discriminate.
Qed.

Lemma split_at_underscore (a a' b b' : string) :
  (forall c, In c (list_ascii_of_string a) -> c <> "_"%char) ->
  (forall c, In c (list_ascii_of_string a') -> c <> "_"%char) ->
  a ++ String "_" b = a' ++ String "_" b' ->
  a = a' /\ b = b'.
Proof.
  revert a'. induction a as [|c a IH]; intros [|c' a'] Ha Ha'; simpl.
  - intros [= ->]. now split.
  - intros [= <- _]. exfalso. apply (Ha' "_"%char); [now left|reflexivity].
  - intros [= -> _]. exfalso. apply (Ha "_"%char); [now left|reflexivity].
  - intros [= -> H]. destruct (IH a') as [-> ->]; try assumption.
    + intros x Hx. apply Ha. now right.
    + intros x Hx. apply Ha'. now right.
    + now split.
Qed.

(** Two identifiers are equal only for the same clock reading and the
    same random suffix. *)
Lemma reasoning_id_inj (now now' : nat) (suffix suffix' : string) :
  reasoning_id now suffix = reasoning_id now' suffix' ->
  now = now' /\ suffix = suffix'.
Proof.
  unfold reasoning_id. simpl. intros [= H].
  apply split_at_underscore in H; try apply digits_no_underscore.
  destruct H as [Hd ->]. split; [|reflexivity].
  apply DecimalNat.Unsigned.to_uint_inj.
  assert (Hu : NilEmpty.uint_of_string (NilEmpty.string_of_uint (Nat.to_uint now)) =
               NilEmpty.uint_of_string (NilEmpty.string_of_uint (Nat.to_uint now')))
    by now rewrite Hd.
  rewrite !NilEmpty.usu in Hu. now injection Hu.
Qed.

Lemma length_set_string (V : Type) (k : string) (v : V)
  (l : list (string * V)) :
  List.length (JMap.set String.eqb k v l) =
    if JMap.has String.eqb k l then List.length l else S (List.length l).
Proof.
  rewrite <- (length_map fst), <- (length_map fst l).
  change (map fst (JMap.set String.eqb k v l))
    with (JMap.keys (JMap.set String.eqb k v l)).
  rewrite (jmap_keys_set _ string_eqb_spec).
  destruct (JMap.has String.eqb k l); [reflexivity|].
  unfold JMap.keys. rewrite length_app. simpl. lia.
Qed.

(** X6: [addReasoning] returns the id built from its clock reading and
    random suffix; [getReasoning] of that id then returns the record just
    given, every other id reads as before, and the metadata store, the
    index, the counter and the configuration are untouched;
    [getStats().totalReasoning] goes up by one when the id was new and
    stays when the id was already in the bank, whose record is then
    replaced. *)
Theorem addReasoning_then_getReasoning s context reasoning metadata
  (now : nat) (suffix : string) (now' : nat) :
  let r := addReasoning context reasoning metadata now suffix now' s in
  fst r = reasoning_id now suffix /\
  getReasoning (fst r) (snd r) =
    Some {| r_context := context; r_reasoning := reasoning;
            r_metadata := metadata; r_timestamp := now' |} /\
  (forall id, id <> fst r -> getReasoning id (snd r) = getReasoning id s) /\
  (memoryStore (snd r) = memoryStore s /\ index (snd r) = index s /\
   currentId (snd r) = currentId s /\ same_config s (snd r)) /\
  totalReasoning (getStats (snd r)) =
    match getReasoning (fst r) s with
    | Some _ => totalReasoning (getStats s)
    | None => S (totalReasoning (getStats s))
    end.
Proof.
  cbv zeta. unfold addReasoning, getReasoning. simpl.
  split; [reflexivity|].
  split; [apply (jmap_get_set_same _ string_eqb_spec)|].
  split; [intros id Hne; now apply (jmap_get_set_other _ string_eqb_spec)|].
  split; [repeat split; reflexivity|].
  rewrite length_set_string. unfold JMap.has.
  now destruct (JMap.get String.eqb (reasoning_id now suffix) (reasoningBank s)).
Qed.

(** X7: two [addReasoning] calls in a row get the same id exactly when
    they read the same clock value and draw the same random suffix.  With
    different ids both records can be read back; with the same id the
    second record has replaced the first and the bank has not grown. *)
Theorem addReasoning_twice s c1 t1 m1 (n1 : nat) (x1 : string) (n1' : nat)
  c2 t2 m2 (n2 : nat) (x2 : string) (n2' : nat) :
  let r1 := addReasoning c1 t1 m1 n1 x1 n1' s in
  let r2 := addReasoning c2 t2 m2 n2 x2 n2' (snd r1) in
  let e1 := {| r_context := c1; r_reasoning := t1; r_metadata := m1;
               r_timestamp := n1' |} in
  let e2 := {| r_context := c2; r_reasoning := t2; r_metadata := m2;
               r_timestamp := n2' |} in
  (fst r1 = fst r2 <-> n1 = n2 /\ x1 = x2) /\
  (fst r1 <> fst r2 ->
     getReasoning (fst r1) (snd r2) = Some e1 /\
     getReasoning (fst r2) (snd r2) = Some e2) /\
  (fst r1 = fst r2 ->
     getReasoning (fst r1) (snd r2) = Some e2 /\
     totalReasoning (getStats (snd r2)) = totalReasoning (getStats (snd r1))).
Proof.
  cbv zeta. unfold addReasoning, getReasoning. simpl. split; [|split].
  - split; [apply reasoning_id_inj|]. now intros [-> ->].
  - intros Hne. split.
    + rewrite (jmap_get_set_other _ string_eqb_spec) by exact Hne.
      apply (jmap_get_set_same _ string_eqb_spec).
    + apply (jmap_get_set_same _ string_eqb_spec).
  - intros Heq. rewrite Heq. split.
    + apply (jmap_get_set_same _ string_eqb_spec).
    + rewrite length_set_string. unfold JMap.has.
      now rewrite (jmap_get_set_same _ string_eqb_spec).
Qed.

End ReasoningMore.

(** ** Composing object spreads and metadata updates *)

Section SpreadFacts.
Variables K V : Type.
Variable eqb : K -> K -> bool.
Hypothesis eqb_spec : forall a b, reflect (a = b) (eqb a b).
#[local] Abbreviation get := (@JMap.get K V eqb).
#[local] Abbreviation has := (@JMap.has K V eqb).
#[local] Abbreviation set := (@JMap.set K V eqb).
#[local] Abbreviation set_all := (@JMap.set_all K V eqb).
#[local] Abbreviation keys := (@JMap.keys K V).
#[local] Abbreviation wf := (@JMap.wf K V).

Lemma jmap_set_set_same k v v' l : set k v (set k v' l) = set k v l.
Proof.
  induction l as [|[k0 v0] l IH]; simpl.
  - now rewrite (jmap_eqb_refl _ eqb_spec).
  - destruct (eqb k k0) eqn:E; simpl.
    + now rewrite (jmap_eqb_refl _ eqb_spec).
    + now rewrite E, IH.
Qed.

Lemma jmap_set_same_value k v l : get k l = Some v -> set k v l = l.
Proof.
  induction l as [|[k0 v0] l IH]; simpl; [discriminate|].
  destruct (eqb_spec k k0) as [->|Hne].
  - now intros [= ->].
  - intros H. now rewrite IH.
Qed.

Lemma jmap_set_comm_present k k' v v' l :
  k <> k' -> has k l = true ->
  set k v (set k' v' l) = set k' v' (set k v l).
Proof.
  intros Hne. unfold JMap.has.
  induction l as [|[k0 v0] l IH]; simpl; [discriminate|].
  destruct (eqb_spec k k0) as [->|Hk]; destruct (eqb_spec k' k0) as [->|Hk'];
    simpl.
  - contradiction.
  - intros _. rewrite (jmap_eqb_refl _ eqb_spec).
    destruct (eqb_spec k' k0); [contradiction|reflexivity].
  - intros _. rewrite (jmap_eqb_refl _ eqb_spec).
    destruct (eqb_spec k k0); [contradiction|reflexivity].
  - intros H. destruct (eqb_spec k k0); [contradiction|].
    destruct (eqb_spec k' k0); [contradiction|]. now rewrite IH.
Qed.

Lemma jmap_has_set k k' v l : has k l = true -> has k (set k' v l) = true.
Proof.
  unfold JMap.has. intros H. destruct (eqb_spec k k') as [->|Hne].
  - now rewrite (jmap_get_set_same _ eqb_spec).
  - now rewrite (jmap_get_set_other _ eqb_spec) by exact Hne.
Qed.

Lemma jmap_set_set_all_present k v U :
  forall A, has k A = true -> ~ In k (keys U) ->
    set k v (set_all A U) = set_all (set k v A) U.
Proof.
  unfold JMap.set_all, JMap.keys.
  induction U as [|[k' v'] U IH]; intros A Hk Hnotin; simpl; [reflexivity|].
  simpl in Hnotin.
  assert (Hne : k <> k') by (intros ->; apply Hnotin; now left).
  rewrite IH.
  - now rewrite (jmap_set_comm_present v v' A Hne Hk).
  - now apply jmap_has_set.
  - intros Hin. apply Hnotin. now right.
Qed.

Lemma jmap_set_set_all k v U :
  forall A, wf U -> set k v (set_all A U) = set_all A (set k v U).
Proof.
  unfold JMap.wf, JMap.keys.
  induction U as [|[k' v'] U IH]; intros A Hwf; [reflexivity|].
  inversion Hwf as [|? ? Hnotin Hwf']; subst.
  change (set_all A ((k', v') :: U)) with (set_all (set k' v' A) U).
  simpl. destruct (eqb_spec k k') as [->|Hne].
  - change (set_all A ((k', v) :: U)) with (set_all (set k' v A) U).
    rewrite jmap_set_set_all_present.
    + now rewrite jmap_set_set_same.
    + unfold JMap.has. now rewrite (jmap_get_set_same _ eqb_spec).
    + exact Hnotin.
  - change (set_all A ((k', v') :: set k v U))
      with (set_all (set k' v' A) (set k v U)).
    now apply IH.
Qed.

(** [{ ...{ ...a, ...b }, ...c }] is [{ ...a, ...{ ...b, ...c } }], entry
    for entry and in the same key order. *)
Lemma jmap_set_all_assoc A U2 :
  forall U1, wf U1 -> set_all (set_all A U1) U2 = set_all A (set_all U1 U2).
Proof.
  induction U2 as [|[k v] U2 IH]; intros U1 Hwf; [reflexivity|].
  change (set_all (set_all A U1) ((k, v) :: U2))
    with (set_all (set k v (set_all A U1)) U2).
  change (set_all U1 ((k, v) :: U2)) with (set_all (set k v U1) U2).
  rewrite jmap_set_set_all by exact Hwf.
  apply IH. now apply (jmap_wf_set _ eqb_spec).
Qed.

Lemma jmap_set_all_self U : forall A, incl U A -> wf A -> set_all A U = A.
Proof.
  unfold JMap.set_all.
  induction U as [|[k v] U IH]; intros A Hincl Hwf; simpl; [reflexivity|].
  rewrite jmap_set_same_value.
  - apply IH; [|exact Hwf]. intros p Hp. apply Hincl. now right.
  - apply (jmap_In_get _ eqb_spec); [exact Hwf|]. apply Hincl. now left.
Qed.

Lemma jmap_set_all_app A U : wf (A ++ U) -> set_all A U = A ++ U.
Proof.
  unfold JMap.set_all, JMap.wf, JMap.keys. revert A.
  induction U as [|[k v] U IH]; intros A Hwf; simpl.
  - now rewrite app_nil_r.
  - assert (Hfresh : get k A = None).
    { apply (jmap_get_None_keys _ eqb_spec). unfold JMap.keys.
      rewrite map_app in Hwf. simpl in Hwf.
      apply NoDup_remove_2 in Hwf. intros Hin. apply Hwf.
      apply in_or_app. now left. }
    rewrite (jmap_set_absent eqb _ _ _ Hfresh).
    rewrite IH; rewrite <- app_assoc; [reflexivity|exact Hwf].
Qed.

End SpreadFacts.

Section UpdateTwice.
Variable F : Type.
Implicit Types s : AgentDB F.

(** X9: two [updateMetadata] calls on the same id, first with U1 (an
    object, so with distinct keys) and then with U2, return the same
    boolean and leave exactly the state that the single call with
    [{ ...U1, ...U2 }] leaves; in particular repeating a call with the
    same object changes nothing more. *)
Theorem updateMetadata_twice s (id : nat) (U1 U2 : Obj) :
  JMap.wf U1 ->
  updateMetadata id U2 (snd (updateMetadata id U1 s)) =
    updateMetadata id (spread U1 U2) s /\
  updateMetadata id U1 (snd (updateMetadata id U1 s)) =
    updateMetadata id U1 s.
Proof.
  intros Hwf. unfold updateMetadata.
  destruct (JMap.get Nat.eqb id (memoryStore s)) as [e|] eqn:E; simpl.
  - rewrite (jmap_get_set_same _ nat_eqb_spec). simpl.
    rewrite !(jmap_set_set_same _ nat_eqb_spec). unfold spread.
    rewrite (jmap_set_all_assoc _ string_eqb_spec _ _ Hwf).
    split; [reflexivity|].
    rewrite (jmap_set_all_assoc _ string_eqb_spec _ _ Hwf).
    now rewrite (jmap_set_all_self _ string_eqb_spec (incl_refl U1) Hwf).
  - rewrite E. now split.
Qed.

End UpdateTwice.

(** ** [export] and [import] on any store *)

Section ImportMore.
Variable F : Type.
Implicit Types s t : AgentDB F.

Lemma readded_keys clock (l : list (nat * VEntry F)) :
  forall j base, JMap.keys (readded clock j base l) = seq base (List.length l).
Proof.
  unfold JMap.keys. induction l as [|p l IH]; intros j base; simpl;
    [reflexivity|]. now rewrite IH.
Qed.

Lemma readded_payload clock (l : list (nat * VEntry F)) :
  forall j base,
    map (@payload F) (readded clock j base l) = map (@payload F) l.
Proof.
  induction l as [|p l IH]; intros j base; simpl; [reflexivity|].
  now rewrite IH.
Qed.

Lemma readded_nth clock (l : list (nat * VEntry F)) :
  forall j base i p,
    nth_error (readded clock j base l) i = Some p ->
    fst p = base + i /\ e_id (snd p) = base + i /\
    e_timestamp (snd p) = clock (j + i).
Proof.
  induction l as [|q l IH]; intros j base [|i] p; simpl; try discriminate.
  - intros [= <-]. simpl. rewrite !Nat.add_0_r. repeat split.
  - intros H. apply IH in H. rewrite <- !Nat.add_succ_comm. exact H.
Qed.

(** X10: on any store that satisfies the invariant of the methods,
    [export()], [clear()], [import(snapshot)] returns normally.  The
    records come back in the same order with the same vectors and
    metadata, but under the ids 0, 1, 2, ... and with the timestamps of
    the import; the reasoning bank is exactly as before; the counter is
    the one before, or the number of records when that was 0; the
    configuration is as before. *)
Theorem roundtrip_renumbers s (clock : nat -> nat) :
  store_invariant s ->
  exists s',
    import (export s) clock (clear s) = (Ok tt, s') /\
    JMap.keys (memoryStore s') = seq 0 (List.length (memoryStore s)) /\
    map (@payload F) (memoryStore s') = map (@payload F) (memoryStore s) /\
    (forall i p, nth_error (memoryStore s') i = Some p ->
       fst p = i /\ e_id (snd p) = i /\ e_timestamp (snd p) = clock i) /\
    reasoningBank s' = reasoningBank s /\
    currentId s' =
      js_or (Some (currentId s)) (List.length (memoryStore s)) /\
    (dimension s' = dimension s /\ maxElements s' = maxElements s /\
     m s' = m s /\ efConstruction s' = efConstruction s /\
     efSearch s' = efSearch s).
Proof.
  intros [Hms [Hrb Hall]].
  destruct (@import_entries_replay F clock (memoryStore s) 0 (clear s))
    as [t' [Hrun [Hcfg [_ [Hcur [Hms' _]]]]]]; try reflexivity.
  { eapply Forall_impl; [|exact Hall]. simpl. tauto. }
  simpl in Hms', Hcur. unfold same_config in Hcfg. simpl in Hcfg.
  destruct Hcfg as [Hd [Hmx [Hm [Hec [Hes _]]]]].
  eexists. split.
  - unfold import, export. simpl.
    change (set_config (dimension s) (maxElements s) (clear (clear s)))
      with (clear s).
    change (map _ (memoryStore s)) with (map (@exported F) (memoryStore s)).
    rewrite Hrun. reflexivity.
  - simpl. rewrite Hms', Hcur.
    split; [apply readded_keys|]. split; [apply readded_payload|].
    split; [intros i p Hp; now apply readded_nth in Hp|].
    split.
    + unfold JMap.of_list. now apply (jmap_set_all_app _ string_eqb_spec).
    + split; [reflexivity|]. repeat split; assumption.
Qed.

Lemma import_entries_pristine clock (entries : list (XEntry F)) :
  forall i t t',
    pristine t ->
    import_entries clock i entries t = (Ok tt, t') ->
    pristine t'.
Proof.
  induction entries as [|x rest IH]; intros i t t' Ht; simpl.
  - now intros [= <-].
  - destruct (addVector (x_vector x) (x_metadata x) (clock i) t)
      as [[id|e] t1] eqn:E; [|discriminate].
    intros Hrest. eapply IH; [|exact Hrest].
    eapply pristine_addVector; [exact Ht|exact E].
Qed.

(** X11: whatever the state before, when [import] returns normally for a
    snapshot that has no config or whose config has the live dimension,
    the resulting store is dense: its ids are 0, 1, ..., n-1 in order,
    every record carries its id and a vector of the configured dimension,
    and the index holds exactly the ids and vectors of the metadata
    store. *)
Theorem import_leaves_dense (data : Snapshot F) (clock : nat -> nat) s s' :
  match snap_config data with
  | Some c => c_dimension c = dimension s
  | None => True
  end ->
  import data clock s = (Ok tt, s') ->
  dense s'.
Proof.
  intros Hdim. unfold import.
  set (s2 := match snap_config data with
             | Some c => set_config (c_dimension c) (c_maxElements c) (clear s)
             | None => clear s
             end).
  assert (H2 : pristine s2).
  { subst s2. destruct (snap_config data) as [c|].
    - repeat split; simpl; try constructor. now symmetry.
    - apply pristine_clear. }
  destruct (snap_memoryStore data) as [entries|].
  - destruct (import_entries clock 0 entries s2) as [[[]|e] s3] eqn:E;
      [|discriminate].
    apply (import_entries_pristine _ _ _ H2) in E. destruct E as [Hdense _].
    intros [= <-]. destruct (snap_reasoningBank data); exact Hdense.
  - intros [= <-]. destruct H2 as [Hdense _].
    destruct (snap_reasoningBank data); exact Hdense.
Qed.

(** [addVector] on a store whose index has another dimension than the
    facade always throws, and only moves the counter. *)
Lemma addVector_dimensions_disagree t (v : VectorArg F) md now :
  h_dim (index t) <> dimension t ->
  exists e,
    addVector v md now t = (Throw e, set_currentId (S (currentId t)) t).
Proof.
  rewrite addVector_float32Array. generalize (float32Array v).
  clear v. intros v.
  intros Hne. unfold addVector, addPoint. simpl.
  destruct (Nat.eqb_spec (List.length v) (dimension t)) as [Hv|Hv]; simpl;
    [|eexists; reflexivity].
  destruct (Nat.eqb_spec (List.length v) (h_dim (index t))) as [Hi|Hi];
    [congruence|]. eexists. reflexivity.
Qed.

(** X12: [import] of a snapshot whose config has another dimension than
    the live one sets the facade's dimension to the snapshot's while the
    index keeps the old one.  If the snapshot has an entry the call
    throws; in every case the metadata store is empty afterwards, and
    from then on every [addVector] throws, until [clear()] rebuilds the
    index with the new dimension. *)
Theorem import_other_dimension (data : Snapshot F) (clock : nat -> nat) s c :
  snap_config data = Some c ->
  c_dimension c <> dimension s ->
  let s' := snd (import data clock s) in
  (forall x rest, snap_memoryStore data = Some (x :: rest) ->
     is_ok (fst (import data clock s)) = false) /\
  memoryStore s' = [] /\
  dimension s' = c_dimension c /\
  h_dim (index s') = dimension s /\
  (forall v md now, is_ok (fst (addVector v md now s')) = false) /\
  h_dim (index (clear s')) = dimension (clear s').
Proof.
  intros Hc Hne. cbv zeta. unfold import. rewrite Hc.
  set (s2 := set_config (c_dimension c) (c_maxElements c) (clear s)).
  assert (H2 : h_dim (index s2) <> dimension s2)
    by (subst s2; simpl; congruence).
  assert (Hbad : forall t, h_dim (index t) <> dimension t ->
            forall v md now, is_ok (fst (addVector v md now t)) = false).
  { intros t Ht v md now.
    destruct (addVector_dimensions_disagree t v md now Ht) as [e ->].
    reflexivity. }
  destruct (snap_memoryStore data) as [[|x rest]|]; simpl.
  - split; [discriminate|].
    destruct (snap_reasoningBank data); simpl;
      (repeat split; try reflexivity); intros; apply Hbad; simpl; congruence.
  - destruct (addVector_dimensions_disagree s2 (x_vector x) (x_metadata x)
                (clock 0) H2) as [e ->]. simpl.
    split; [reflexivity|].
    repeat split; try reflexivity. intros; apply Hbad; simpl; congruence.
  - split; [discriminate|].
    destruct (snap_reasoningBank data); simpl;
      (repeat split; try reflexivity); intros; apply Hbad; simpl; congruence.
Qed.

End ImportMore.

(** ** The utilities: embeddings and cosine similarity *)

Module UtilsFacts.
Import PrimFloat Utils.
Local Open Scope float_scope.

Lemma update_at_length (f : float -> float) (vector : list float) :
  forall i, List.length (update_at i f vector) = List.length vector.
Proof.
  induction vector as [|x rest IH]; intros [|i]; simpl; try reflexivity.
  now rewrite IH.
Qed.

Lemma accumulate_length (codes : list nat) (dimension : nat) :
  forall i vector,
    List.length (accumulate codes i dimension vector) = List.length vector.
Proof.
  induction codes as [|c rest IH]; intros i vector; simpl; [reflexivity|].
  now rewrite IH, update_at_length.
Qed.

Lemma sum_squares_zeros (n : nat) :
  fold_left (fun sum val => sum + val * val) (repeat 0 n) 0 = 0.
Proof.
  induction n as [|n IH]; simpl; [reflexivity|].
  change (0 + 0 * 0) with 0. exact IH.
Qed.

Lemma simpleTextEmbedding_length (text : string) (dimension : nat) :
  List.length (simpleTextEmbedding text dimension) = dimension.
Proof.
  unfold simpleTextEmbedding.
  destruct (0 <? magnitude _);
    now rewrite ?length_map, accumulate_length, repeat_length.
Qed.

Lemma simpleTextEmbedding_empty (dimension : nat) :
  simpleTextEmbedding EmptyString dimension = repeat 0 dimension.
Proof.
  unfold simpleTextEmbedding, charCodes, magnitude. simpl.
  now rewrite sum_squares_zeros.
Qed.

(** X13: [simpleTextEmbedding(text, dimension)] and
    [randomEmbedding(dimension)] always return exactly [dimension]
    entries, also for the empty text and for dimension 0; for the empty
    text the result is the vector of zeros, which is not normalized. *)
Theorem embeddings_have_the_dimension (text : string) (dimension : nat)
  (random : nat -> float) :
  List.length (simpleTextEmbedding text dimension) = dimension /\
  List.length (randomEmbedding random dimension) = dimension /\
  simpleTextEmbedding EmptyString dimension = repeat 0 dimension.
Proof.
  split; [|split].
  - apply simpleTextEmbedding_length.
  - unfold randomEmbedding. now rewrite !length_map, length_seq.
  - apply simpleTextEmbedding_empty.
Qed.

Lemma SFmul_comm (prec emax : Z) (x y : SpecFloat.spec_float) :
  SpecFloat.SFmul prec emax x y = SpecFloat.SFmul prec emax y x.
Proof.
  destruct x as [sx|sx| |sx mx ex], y as [sy|sy| |sy my ey]; simpl;
    try reflexivity; try (now rewrite xorb_comm).
  now rewrite xorb_comm, Pos.mul_comm, Z.add_comm.
Qed.

(** Multiplication of JS numbers is commutative. *)
Lemma float_mul_comm (x y : float) : x * y = y * x.
Proof.
  apply FloatAxioms.Prim2SF_inj. rewrite !FloatAxioms.mul_spec.
  apply SFmul_comm.
Qed.

Lemma cosine_sums_swap (a : list float) :
  forall b dotProduct magA magB,
    cosine_sums b a dotProduct magB magA =
      let '(d, ma, mb) := cosine_sums a b dotProduct magA magB in (d, mb, ma).
Proof.
  induction a as [|x a IH]; intros [|y b] d ma mb; simpl; try reflexivity.
  rewrite (float_mul_comm y x). apply IH.
Qed.

Lemma cosine_sums_zeros (n : nat) :
  cosine_sums (repeat 0 n) (repeat 0 n) 0 0 0 = (0, 0, 0).
Proof.
  induction n as [|n IH]; simpl; [reflexivity|].
  change (0 + 0 * 0) with 0. exact IH.
Qed.

(** X14: [cosineSimilarity(a, b)] throws exactly when the two lengths
    differ; otherwise it returns the same number as
    [cosineSimilarity(b, a)]; and on the embedding of the empty text,
    the zero vector, it returns NaN. *)
Theorem cosineSimilarity_symmetric (a b : list float) (dimension : nat) :
  cosineSimilarity a b = cosineSimilarity b a /\
  (cosineSimilarity a b = None <-> List.length a <> List.length b) /\
  cosineSimilarity (simpleTextEmbedding EmptyString dimension)
                   (simpleTextEmbedding EmptyString dimension) = Some nan.
Proof.
  split; [|split].
  - unfold cosineSimilarity. rewrite (Nat.eqb_sym (List.length b)).
    destruct (List.length a =? List.length b)%nat; simpl; [|reflexivity].
    rewrite (cosine_sums_swap a b 0 0 0).
    destruct (cosine_sums a b 0 0 0) as [[d ma] mb].
    now rewrite (float_mul_comm (sqrt mb)).
  - unfold cosineSimilarity.
    destruct (Nat.eqb_spec (List.length a) (List.length b)) as [H|H]; simpl.
    + destruct (cosine_sums a b 0 0 0) as [[d ma] mb].
      split; [discriminate|contradiction].
    + now split.
  - rewrite simpleTextEmbedding_empty. unfold cosineSimilarity.
    rewrite Nat.eqb_refl, cosine_sums_zeros. reflexivity.
Qed.

End UtilsFacts.

(** ** The agent of the memory example *)

Module AgentFacts.
Import Agent.

(** X15: [remember] always advances the agent's conversation count and
    the store's counter by one.  On a store whose dimension is not 384 it
    always throws the vector dimension error and stores nothing; on a
    store of dimension 384 it never throws that error.  When it returns
    an id, that id is the store's counter before the call and the record
    stored under it has the embedding of the content as its vector and
    the content, type, agent name, conversation number and time as its
    metadata. *)
Theorem remember_needs_dimension_384 (content type iso : string) (now : nat)
  (a : AIAgent) :
  let r := remember content type iso now a in
  (conversationCount (snd r) = S (conversationCount a) /\
   currentId (memory (snd r)) = S (currentId (memory a)) /\
   name (snd r) = name a) /\
  (dimension (memory a) <> 384 ->
     fst r = Throw (VectorDimension 384 (dimension (memory a))) /\
     memoryStore (memory (snd r)) = memoryStore (memory a) /\
     index (memory (snd r)) = index (memory a)) /\
  (dimension (memory a) = 384 ->
     forall got want, fst r <> Throw (VectorDimension got want)) /\
  (forall id, fst r = Ok id ->
     id = currentId (memory a) /\
     JMap.get Nat.eqb id (memoryStore (memory (snd r))) =
       Some {| e_vector := Utils.simpleTextEmbedding content 384;
               e_metadata :=
                 [("content", JStr content); ("type", JStr type);
                  ("agent", JStr (name a));
                  ("conversation",
                   JNum (Z.of_nat (S (conversationCount a))));
                  ("timestamp", JStr iso)]%string;
               e_timestamp := now; e_id := id |}).
Proof.
  cbv zeta. unfold remember. cbn [fst snd name memory conversationCount].
  set (embedding := Utils.simpleTextEmbedding content 384).
  set (md := [("content"%string, JStr content); _; _; _; _]).
  assert (Hlen : List.length embedding = 384)
    by apply UtilsFacts.simpleTextEmbedding_length.
  split; [|split; [|split]].
  - split; [reflexivity|]. split; [|reflexivity].
    apply addVector_counter.
  - intros Hne.
    rewrite addVector_mismatch by (rewrite Hlen; congruence).
    rewrite Hlen. repeat split.
  - intros Hd got want.
    unfold addVector, addPoint.
    cbn [currentId dimension index set_currentId float32Array].
    rewrite Hlen, Hd, Nat.eqb_refl. cbn [negb fst].
    destruct (384 =? h_dim (index (memory a))); discriminate.
  - intros id. clearbody embedding. unfold addVector, addPoint.
    cbn [currentId dimension index set_currentId float32Array].
    destruct (negb (List.length embedding =? dimension (memory a)));
      [discriminate|].
    destruct (List.length embedding =? h_dim (index (memory a)));
      [|discriminate].
    cbn [fst snd memoryStore set_memoryStore set_index].
    intros [= <-]. split; [reflexivity|].
    apply (jmap_get_set_same _ nat_eqb_spec).
Qed.

End AgentFacts.

(** ** The cleanup loop of the advanced demo *)

Section CleanupFacts.
Variable F : Type.
Implicit Types s t : AgentDB F.

Lemma deleteVector_state t (id : nat) :
  snd (deleteVector id t) =
    set_memoryStore (JMap.delete Nat.eqb id (memoryStore t)) t.
Proof.
  unfold deleteVector.
  destruct (JMap.has Nat.eqb id (memoryStore t)) eqn:E; simpl; [reflexivity|].
  rewrite jmap_delete_absent.
  - now destruct t.
  - unfold JMap.has in E. now destruct (JMap.get Nat.eqb id (memoryStore t)).
Qed.

(** The loop on the states against the same loop on the entries alone. *)
Lemma cleanup_fold (l : list (nat * VEntry F)) :
  forall n t,
    fold_left
      (fun acc p =>
         if is_batch_100 (snd p)
         then (S (fst acc), snd (deleteVector (fst p) (snd acc)))
         else acc) l (n, t) =
    (n + List.length (filter (fun p => is_batch_100 (snd p)) l),
     set_memoryStore
       (fold_left
          (fun ms p => if is_batch_100 (snd p)
                       then JMap.delete Nat.eqb (fst p) ms else ms)
          l (memoryStore t)) t).
Proof.
  induction l as [|p l IH]; intros n t; simpl.
  - rewrite Nat.add_0_r. now destruct t.
  - destruct (is_batch_100 (snd p)); simpl.
    + rewrite IH, deleteVector_state. simpl. f_equal. lia.
    + apply IH.
Qed.

Lemma delete_middle (V : Type) (k : nat) (v : V) (pre l : list (nat * V)) :
  JMap.wf (pre ++ (k, v) :: l) ->
  JMap.delete Nat.eqb k (pre ++ (k, v) :: l) = pre ++ l.
Proof.
  unfold JMap.wf, JMap.keys. rewrite map_app. simpl. intros Hwf.
  pose proof (NoDup_remove_2 _ _ _ Hwf) as Hnotin.
  unfold JMap.delete. rewrite filter_app. simpl.
  rewrite Nat.eqb_refl. simpl.
  fold (JMap.delete Nat.eqb k pre). fold (JMap.delete Nat.eqb k l).
  rewrite !jmap_delete_absent; [reflexivity| |];
    apply (jmap_get_None_keys _ nat_eqb_spec); unfold JMap.keys;
    intros Hin; apply Hnotin; apply in_or_app; tauto.
Qed.

Lemma cleanup_entries (l : list (nat * VEntry F)) :
  forall pre,
    JMap.wf (pre ++ l) ->
    fold_left
      (fun ms p => if is_batch_100 (snd p)
                   then JMap.delete Nat.eqb (fst p) ms else ms)
      l (pre ++ l) =
    pre ++ filter (fun p => negb (is_batch_100 (snd p))) l.
Proof.
  induction l as [|[k e] l IH]; intros pre Hwf; simpl; [reflexivity|].
  destruct (is_batch_100 e); simpl.
  - rewrite delete_middle by exact Hwf. apply IH.
    unfold JMap.wf, JMap.keys in *. rewrite map_app in *. simpl in Hwf.
    now apply NoDup_remove_1 in Hwf.
  - change (pre ++ (k, e) :: l) with (pre ++ [(k, e)] ++ l).
    rewrite app_assoc. rewrite IH.
    + now rewrite <- app_assoc.
    + now rewrite <- app_assoc.
Qed.

(** X16: on a store with distinct ids, the cleanup loop leaves in the
    metadata store exactly the records that are not of batch 100, in
    their order; its count is the number of records of batch 100, so the
    vectors counted before are those counted after plus the deleted ones;
    the index, the counter and the reasoning bank are as before. *)
Theorem cleanup_batch_100_removes_the_batch s :
  JMap.wf (memoryStore s) ->
  let r := cleanup_batch_100 s in
  memoryStore (snd r) =
    filter (fun p => negb (is_batch_100 (snd p))) (memoryStore s) /\
  fst r = List.length (filter (fun p => is_batch_100 (snd p)) (memoryStore s)) /\
  totalVectors (getStats (snd r)) + fst r = totalVectors (getStats s) /\
  index (snd r) = index s /\ currentId (snd r) = currentId s /\
  reasoningBank (snd r) = reasoningBank s.
Proof.
  intros Hwf. cbv zeta. unfold cleanup_batch_100. rewrite cleanup_fold.
  pose proof (cleanup_entries (memoryStore s) [] Hwf) as H. simpl in H.
  simpl. rewrite H. clear H Hwf. repeat split.
  rewrite Nat.add_comm.
  induction (memoryStore s) as [|p l IH]; simpl; [reflexivity|].
  destruct (is_batch_100 (snd p)); simpl; lia.
Qed.

End CleanupFacts.

(** ** What leaves the ranking of [search] alone *)

Section SearchFrame.
Variables F D : Type.
Variable dist : list F -> list F -> D.
Variable dleb : D -> D -> bool.
Implicit Types s : AgentDB F.

Lemma ranking_search s s' (query : VectorArg F) (k : nat) :
  dimension s' = dimension s ->
  index s' = index s ->
  (forall p : nat * D, sr_id (hydrate s' p) = sr_id (hydrate s p)) ->
  ranking (search dist dleb query k s') = ranking (search dist dleb query k s).
Proof.
  intros Hd Hi Hh. unfold search. cbv zeta. rewrite Hd, Hi.
  destruct (negb (List.length (float32Array query) =? dimension s));
    [reflexivity|].
  destruct (searchKnn dist dleb (float32Array query) k (index s)) as [l|e];
    [|reflexivity].
  simpl. f_equal. rewrite !map_map. apply map_ext. intros p.
  rewrite Hh. f_equal.
  unfold hydrate.
  destruct (JMap.get Nat.eqb (fst p) (memoryStore s')),
           (JMap.get Nat.eqb (fst p) (memoryStore s)); reflexivity.
Qed.

(** X17: [updateMetadata] and [addReasoning] never change what [search]
    ranks: for every query and [k], the ids and distances returned, their
    order, and a thrown error are the same after the call as before; and
    after [updateMetadata(id, U)] returned true, a result for that id
    shows the merged metadata. *)
Theorem search_ranking_unchanged_by_updates s (query : VectorArg F) (k : nat)
  (id : nat) (U : Obj) context reasoning metadata now suffix now' :
  ranking (search dist dleb query k (snd (updateMetadata id U s))) =
    ranking (search dist dleb query k s) /\
  search dist dleb query k
    (snd (addReasoning context reasoning metadata now suffix now' s)) =
    search dist dleb query k s /\
  (forall e (d : D), JMap.get Nat.eqb id (memoryStore s) = Some e ->
     sr_metadata (hydrate (snd (updateMetadata id U s)) (id, d)) =
       Some (spread (e_metadata e) U)).
Proof.
  split; [|split].
  - apply ranking_search.
    + unfold updateMetadata.
      now destruct (JMap.get Nat.eqb id (memoryStore s)).
    + unfold updateMetadata.
      now destruct (JMap.get Nat.eqb id (memoryStore s)).
    + intros p. unfold updateMetadata.
      destruct (JMap.get Nat.eqb id (memoryStore s)) as [e|] eqn:E;
        [|reflexivity].
      unfold hydrate. simpl.
      destruct (Nat.eq_dec (fst p) id) as [->|Hne].
      * now rewrite (jmap_get_set_same _ nat_eqb_spec), E.
      * now rewrite (jmap_get_set_other _ nat_eqb_spec) by exact Hne.
  - reflexivity.
  - intros e d E. unfold updateMetadata, hydrate. rewrite E. simpl.
    now rewrite (jmap_get_set_same _ nat_eqb_spec).
Qed.

(** X18: on a store whose records carry the id they are stored under,
    [deleteVector] does not change what [search] ranks either: the same
    ids with the same distances come back in the same order, whether or
    not the id was deleted; a result for a deleted id only loses its
    vector, metadata and timestamp. *)
Theorem search_ranking_unchanged_by_deleteVector s (query : VectorArg F)
  (k : nat) (id : nat) :
  Forall (fun p => e_id (snd p) = fst p) (memoryStore s) ->
  ranking (search dist dleb query k (snd (deleteVector id s))) =
    ranking (search dist dleb query k s) /\
  (forall d : D,
     sr_metadata (hydrate (snd (deleteVector id s)) (id, d)) = None).
Proof.
  intros Hall. split.
  - apply ranking_search.
    + unfold deleteVector. now destruct (JMap.has Nat.eqb id (memoryStore s)).
    + unfold deleteVector. now destruct (JMap.has Nat.eqb id (memoryStore s)).
    + intros p. unfold deleteVector.
      destruct (JMap.has Nat.eqb id (memoryStore s)); [|reflexivity].
      unfold hydrate. simpl.
      assert (Hkey : forall e, JMap.get Nat.eqb (fst p) (memoryStore s) = Some e ->
                               e_id e = fst p).
      { intros e He. apply (jmap_get_In _ nat_eqb_spec) in He.
        rewrite Forall_forall in Hall. exact (Hall _ He). }
      destruct (Nat.eq_dec (fst p) id) as [Heq|Hne].
      * rewrite Heq at 1. rewrite jmap_get_delete_same.
        destruct (JMap.get Nat.eqb (fst p) (memoryStore s)) as [e|] eqn:E;
          simpl; [|reflexivity]. symmetry. now apply Hkey.
      * now rewrite (jmap_get_delete_other _ nat_eqb_spec) by exact Hne.
  - intros d. unfold hydrate, deleteVector.
    destruct (JMap.has Nat.eqb id (memoryStore s)) eqn:E; simpl.
    + now rewrite jmap_get_delete_same.
    + unfold JMap.has in E.
      now destruct (JMap.get Nat.eqb id (memoryStore s)).
Qed.

End SearchFrame.

(** ** The theorems with hypotheses at the concrete instance *)

Lemma two_vectors_ids_distinct : JMap.wf (memoryStore two_vectors).
Proof. repeat constructor; simpl; intuition discriminate. Qed.

Lemma two_vectors_ids_below : ids_below_counter two_vectors.
Proof.
  intros [|[|id]] H; [unfold two_vectors; simpl; lia
                     |unfold two_vectors; simpl; lia|discriminate].
Qed.

Lemma first_deleted_invariant : store_invariant first_deleted.
Proof.
  split; [|split].
  - repeat constructor. simpl. tauto.
  - constructor.
  - repeat constructor.
Qed.

Module FloatRunFacts.
Import PrimFloat FloatRuns.

(** [addVector_stores_record] on [addVector([16777217, 0])] with a plain
    array: the record holds 16777216, the single-precision value next to
    16777217. *)
Lemma addVector_stores_record_witness :
  addVector (PlainArray Utils.fround [16777217; 0]%float) [] 1
    (new_AgentDB PrimFloat.float (opts 2)) = (Ok 0, plain_array_added) /\
  JMap.get Nat.eqb 0 (memoryStore plain_array_added) =
    Some {| e_vector := [16777216; 0]%float; e_metadata := [];
            e_timestamp := 1; e_id := 0 |}.
Proof.
  assert (H : addVector (PlainArray Utils.fround [16777217; 0]%float) [] 1
                (new_AgentDB PrimFloat.float (opts 2)) =
              (Ok 0, plain_array_added)) by reflexivity.
  split; [exact H|].
  destruct (addVector_stores_record _ _ _ _ H) as [_ [_ [_ [Hg _]]]].
  exact Hg.
Defined.

End FloatRunFacts.

(** [getStats_accounting] on [two_vectors]. *)
Lemma getStats_accounting_witness :
  JMap.wf (memoryStore two_vectors) /\
  ids_below_counter two_vectors /\
  totalVectors (getStats (snd (deleteVector 0 two_vectors))) +
    (if fst (deleteVector 0 two_vectors) then 1 else 0) =
  totalVectors (getStats two_vectors).
Proof.
  split; [exact two_vectors_ids_distinct|].
  split; [exact two_vectors_ids_below|].
  exact (proj1 (proj2 (getStats_accounting two_vectors_ids_distinct
                         two_vectors_ids_below)) 0).
Defined.

(** [updateMetadata_twice] on [{ a: 1 }], then [{ b: 2 }], then [{ c: 3 }]. *)
Lemma updateMetadata_twice_witness :
  JMap.wf [("b"%string, JNum 2)] /\
  updateMetadata 0 [("c"%string, JNum 3)]
    (snd (updateMetadata 0 [("b"%string, JNum 2)] with_a1)) =
  updateMetadata 0 (spread [("b"%string, JNum 2)] [("c"%string, JNum 3)])
    with_a1.
Proof.
  assert (Hwf : JMap.wf [("b"%string, JNum 2)])
    by (repeat constructor; simpl; tauto).
  split; [exact Hwf|].
  exact (proj1 (@updateMetadata_twice Z with_a1 0 _
                  [("c"%string, JNum 3)] Hwf)).
Defined.

(** [roundtrip_renumbers] on the store with id 0 deleted and id 1 left. *)
Lemma roundtrip_renumbers_witness :
  store_invariant first_deleted /\
  exists s',
    import (export first_deleted) (fun _ => 9) (clear first_deleted)
      = (Ok tt, s') /\
    JMap.keys (memoryStore s') = [0] /\
    map (@payload Z) (memoryStore s') = [([0; 1]%Z, [])].
Proof.
  split; [exact first_deleted_invariant|].
  destruct (roundtrip_renumbers (fun _ => 9) first_deleted_invariant)
    as [s' [Hi [Hk [Hp _]]]].
  exists s'. split; [exact Hi|]. split; [exact Hk|exact Hp].
Defined.

(** [import_leaves_dense] on the same round trip. *)
Lemma import_leaves_dense_witness :
  match snap_config (export first_deleted) with
  | Some c => c_dimension c = dimension (clear first_deleted)
  | None => True
  end /\
  import (export first_deleted) (fun _ => 9) (clear first_deleted)
    = (Ok tt, snd reimported) /\
  dense (snd reimported).
Proof.
  assert (H1 : match snap_config (export first_deleted) with
               | Some c => c_dimension c = dimension (clear first_deleted)
               | None => True
               end) by reflexivity.
  assert (H2 : import (export first_deleted) (fun _ => 9) (clear first_deleted)
               = (Ok tt, snd reimported)) by reflexivity.
  split; [exact H1|]. split; [exact H2|].
  exact (@import_leaves_dense Z (export first_deleted) (fun _ => 9)
           (clear first_deleted) (snd reimported) H1 H2).
Defined.

(** [import_other_dimension]: a snapshot of dimension 3 into a store of
    dimension 2. *)
Lemma import_other_dimension_witness :
  snap_config snapshot_dim3 =
    Some {| c_dimension := 3; c_maxElements := 10000; c_m := 16;
            c_efConstruction := 200; c_efSearch := 50 |} /\
  3 <> dimension one_vector /\
  memoryStore (snd (import snapshot_dim3 (fun _ => 0) one_vector)) = [] /\
  dimension (snd (import snapshot_dim3 (fun _ => 0) one_vector)) = 3.
Proof.
  assert (H1 : snap_config snapshot_dim3 =
               Some {| c_dimension := 3; c_maxElements := 10000; c_m := 16;
                       c_efConstruction := 200; c_efSearch := 50 |})
    by reflexivity.
  assert (H2 : 3 <> dimension one_vector) by (simpl; lia).
  split; [exact H1|]. split; [exact H2|].
  destruct (import_other_dimension snapshot_dim3 (fun _ => 0) one_vector H1 H2)
    as [_ [Hm [Hd _]]].
  split; [exact Hm|exact Hd].
Defined.

(** [cleanup_batch_100_removes_the_batch] on a store with one record of
    batch 100 and one of batch 500. *)
Lemma cleanup_batch_100_removes_the_batch_witness :
  JMap.wf (memoryStore two_batches) /\
  fst (cleanup_batch_100 two_batches) = 1 /\
  JMap.keys (memoryStore (snd (cleanup_batch_100 two_batches))) = [1].
Proof.
  assert (Hwf : JMap.wf (memoryStore two_batches))
    by (repeat constructor; simpl; intuition discriminate).
  split; [exact Hwf|].
  destruct (cleanup_batch_100_removes_the_batch two_batches Hwf)
    as [Hms [Hn _]].
  split; [rewrite Hn; reflexivity|rewrite Hms; reflexivity].
Defined.

(** [search_ranking_unchanged_by_deleteVector] on [two_vectors]. *)
Lemma search_ranking_unchanged_by_deleteVector_witness :
  Forall (fun p => e_id (snd p) = fst p) (memoryStore two_vectors) /\
  ranking (zsearch [1; 0]%Z 2 (snd (deleteVector 0 two_vectors))) =
    ranking (zsearch [1; 0]%Z 2 two_vectors).
Proof.
  assert (H : Forall (fun p => e_id (snd p) = fst p) (memoryStore two_vectors))
    by (repeat constructor).
  split; [exact H|].
  exact (proj1 (@search_ranking_unchanged_by_deleteVector Z Z l2sq Z.leb
                  two_vectors [1; 0]%Z 2 0 H)).
Defined.
